(** * seaflowpy: the OPP summary store, the particle-file codec, gating
    parameters, channel statistics and the detector transform.

    The persistence layer follows [seaflowpy/db.py] statement by statement:
    the functions there build SQL text and hand it to SQLite through
    [execute], one connection and one commit per statement.  The SQL they
    issue is interpreted here by a small engine ([sqlite_execute]) covering
    the statements of db.py: string literals with their quote escape,
    comparisons joined by AND and OR, named placeholders, NOT NULL and
    PRIMARY KEY constraints.

    The codec, the transform, the gate and the statistics live in
    [seaflowpy/evt.py], which is not among the sources at hand; they are
    modelled from the specification and from what [tests/test_evtopp.py]
    observes of them, and are marked as such where they are defined. *)

From Stdlib Require Import ZArith QArith Reals Lra Lia List Ascii String Bool.
From stdpp Require Import gmap strings list pretty.

Local Open Scope Z_scope.
Local Open Scope string_scope.
Local Open Scope list_scope.

(** ** Python values *)

(** The values db.py receives in its dictionaries and binds to SQL
    placeholders: [None], [int], [float] and [str].  The sqlite3 module
    stores them as NULL, INTEGER, REAL and TEXT and reads them back as the
    same Python values.  db.py never computes with a float, it only passes
    it on, so a float is carried by its [repr] text (["0.5"], ["-1792.0"]),
    which is what [str] and [%s] print for it. *)
Inductive pyval : Type :=
| PyNone
| PyInt (z : Z)
| PyFloat (repr : string)
| PyStr (s : string).

#[global] Instance pyval_eq_dec : EqDecision pyval.
Proof. solve_decision. Defined.

(** [str(v)], as the [%s] conversion applies it. *)
Definition py_str (v : pyval) : string :=
  match v with
  | PyNone => "None"
  | PyInt z => pretty z
  | PyFloat r => r
  | PyStr s => s
  end.

(** [sep.join(parts)]. *)
Fixpoint py_join (sep : string) (parts : list string) : string :=
  match parts with
  | [] => ""
  | [p] => p
  | p :: rest => p +:+ sep +:+ py_join sep rest
  end.

(** What a call raises.  [KeyError] is Python's own, for a dictionary
    subscript; the other three are the sqlite3 module's: [OperationalError]
    for SQL text that cannot be prepared (syntax, unknown table or column,
    wrong number of values), [ProgrammingError] for a placeholder with no
    binding, [IntegrityError] for a NOT NULL or PRIMARY KEY violation. *)
Inductive exn : Type :=
| KeyError (key : string)
| OperationalError
| ProgrammingError
| IntegrityError.

#[global] Instance exn_eq_dec : EqDecision exn.
Proof. solve_decision. Defined.

(** ** SQL text: tokens *)

Definition quote : ascii := "'"%char.

Inductive token : Type :=
| TWord (w : string)      (* keyword or identifier, lower-cased *)
| TStr (s : string)       (* string literal, quotes removed, escapes resolved *)
| TParam (name : string)  (* named placeholder, the colon removed *)
| TEq                     (* = and == *)
| TLpar
| TRpar
| TComma.

#[global] Instance token_eq_dec : EqDecision token.
Proof. solve_decision. Defined.

Definition is_upper (c : ascii) : bool :=
  let n := nat_of_ascii c in (65 <=? n)%nat && (n <=? 90)%nat.

Definition is_word_char (c : ascii) : bool :=
  let n := nat_of_ascii c in
  ((65 <=? n)%nat && (n <=? 90)%nat) || ((97 <=? n)%nat && (n <=? 122)%nat)
  || ((48 <=? n)%nat && (n <=? 57)%nat) || (n =? 95)%nat.

(** SQL keywords and identifiers are case-insensitive: words are compared
    in lower case. *)
Definition lower (c : ascii) : ascii :=
  if is_upper c then ascii_of_nat (nat_of_ascii c + 32) else c.

Definition is_blank (c : ascii) : bool :=
  let n := nat_of_ascii c in (n =? 32)%nat || ((9 <=? n)%nat && (n <=? 13)%nat).

(** The tokenizer is a state machine over the characters.  Inside a string
    literal a quote is either the first half of an escaped quote (two
    quotes stand for one) or the end of the literal; which one is known
    only at the next character, hence [LStrQ]. *)
Inductive lex_mode : Type :=
| LTop
| LWord (acc : list ascii)
| LParam (acc : list ascii)
| LStr (acc : list ascii)
| LStrQ (acc : list ascii)
| LEq.

Definition text (acc : list ascii) : string := string_of_list_ascii acc.

(** One character read outside any token. *)
Definition lex_top (c : ascii) : option (lex_mode * list token) :=
  if is_blank c then Some (LTop, [])
  else if Ascii.eqb c quote then Some (LStr [], [])
  else if Ascii.eqb c ":" then Some (LParam [], [])
  else if Ascii.eqb c "=" then Some (LEq, [])
  else if Ascii.eqb c "(" then Some (LTop, [TLpar])
  else if Ascii.eqb c ")" then Some (LTop, [TRpar])
  else if Ascii.eqb c "," then Some (LTop, [TComma])
  else if is_word_char c then Some (LWord [lower c], [])
  else None.

(** The next mode and the tokens completed by reading [c]; [None] is a
    character SQLite's tokenizer has no use for here. *)
Definition lex_step (m : lex_mode) (c : ascii) : option (lex_mode * list token) :=
  match m with
  | LTop => lex_top c
  | LWord acc =>
      if is_word_char c then Some (LWord (acc ++ [lower c]), [])
      else '(m', ts) ← lex_top c; Some (m', TWord (text acc) :: ts)
  | LParam acc =>
      if is_word_char c then Some (LParam (acc ++ [c]), [])
      else match acc with
           | [] => None
           | _ => '(m', ts) ← lex_top c; Some (m', TParam (text acc) :: ts)
           end
  | LStr acc =>
      if Ascii.eqb c quote then Some (LStrQ acc, [])
      else Some (LStr (acc ++ [c]), [])
  | LStrQ acc =>
      if Ascii.eqb c quote then Some (LStr (acc ++ [quote]), [])
      else '(m', ts) ← lex_top c; Some (m', TStr (text acc) :: ts)
  | LEq =>
      if Ascii.eqb c "=" then Some (LTop, [TEq])
      else '(m', ts) ← lex_top c; Some (m', TEq :: ts)
  end.

(** End of the text: a literal still open is an error, everything else
    completes its token. *)
Definition lex_end (m : lex_mode) : option (list token) :=
  match m with
  | LTop => Some []
  | LWord acc => Some [TWord (text acc)]
  | LParam [] => None
  | LParam acc => Some [TParam (text acc)]
  | LStr _ => None
  | LStrQ acc => Some [TStr (text acc)]
  | LEq => Some [TEq]
  end.

Fixpoint lex_run (m : lex_mode) (cs : list ascii) : option (list token) :=
  match cs with
  | [] => lex_end m
  | c :: cs' =>
      '(m', ts) ← lex_step m c;
      rest ← lex_run m' cs';
      Some (ts ++ rest)
  end.

Definition tokenize (sql : string) : option (list token) :=
  lex_run LTop (list_ascii_of_string sql).

(** ** SQL text: statements *)

Inductive operand : Type :=
| OCol (name : string)
| OLit (s : string).

(** A WHERE clause in the covered fragment: comparisons joined by AND and
    OR, AND binding tighter, kept as the OR of its AND groups. *)
Inductive stmt : Type :=
| SDelete (tbl : string) (cond : list (list (operand * operand)))
| SInsert (tbl : string) (params : list string).

#[global] Instance operand_eq_dec : EqDecision operand.
Proof. solve_decision. Defined.
#[global] Instance stmt_eq_dec : EqDecision stmt.
Proof. solve_decision. Defined.

Definition keywords : list string :=
  ["and"; "or"; "where"; "from"; "delete"; "insert"; "into"; "values"].

Definition operand_of (t : token) : option operand :=
  match t with
  | TWord w => if bool_decide (w ∈ keywords) then None else Some (OCol w)
  | TStr s => Some (OLit s)
  | _ => None
  end.

Fixpoint parse_where (ts : list token) : option (list (list (operand * operand))) :=
  match ts with
  | a :: TEq :: b :: tl =>
      x ← operand_of a;
      y ← operand_of b;
      match tl with
      | [] => Some [[(x, y)]]
      | TWord w :: tl' =>
          if String.eqb w "and" then
            match parse_where tl' with
            | Some (g :: gs) => Some (((x, y) :: g) :: gs)
            | _ => None
            end
          else if String.eqb w "or" then
            gs ← parse_where tl'; Some ([(x, y)] :: gs)
          else None
      | _ => None
      end
  | _ => None
  end.

Fixpoint parse_params (ts : list token) : option (list string) :=
  match ts with
  | [TParam p; TRpar] => Some [p]
  | TParam p :: TComma :: tl => ps ← parse_params tl; Some (p :: ps)
  | _ => None
  end.

Definition parse_tokens (ts : list token) : option stmt :=
  match ts with
  | TWord k1 :: TWord k2 :: TWord tbl :: TWord k3 :: tl =>
      if bool_decide (tbl ∈ keywords) then None
      else if String.eqb k1 "delete" && String.eqb k2 "from" && String.eqb k3 "where"
      then cond ← parse_where tl; Some (SDelete tbl cond)
      else if String.eqb k1 "insert" && String.eqb k2 "into" && String.eqb k3 "values"
      then match tl with
           | TLpar :: tl' => ps ← parse_params tl'; Some (SInsert tbl ps)
           | _ => None
           end
      else None
  | _ => None
  end.

(** The statement SQLite prepares from [sql]; [None] when the text is not
    a statement of the covered fragment. *)
Definition parse_sql (sql : string) : option stmt :=
  ts ← tokenize sql; parse_tokens ts.

(** ** Tables *)

Inductive sqltype : Type := TEXT | INTEGER | REAL.

Record column : Type := Column {
  col_name : string;
  col_type : sqltype;
  col_notnull : bool
}.

(** Rows are kept in insertion order, each with one value per column.
    Values are stored as bound: the conversions of column type affinity
    are not part of the model (db.py's callers bind str to the TEXT
    columns and numbers to the others). *)
Record table : Type := Table {
  tbl_cols : list column;
  tbl_pk : list string;
  tbl_rows : list (list pyval)
}.

Abbreviation database := (gmap string table).

Definition lower_string (s : string) : string :=
  string_of_list_ascii (map lower (list_ascii_of_string s)).

Fixpoint col_index (cols : list column) (name : string) : option nat :=
  match cols with
  | [] => None
  | c :: cols' =>
      if String.eqb (lower_string (col_name c)) name then Some 0%nat
      else S <$> col_index cols' name
  end.

Definition field (cols : list column) (row : list pyval) (name : string) : pyval :=
  match col_index cols name with
  | Some i => nth i row PyNone
  | None => PyNone
  end.

Definition operand_known (cols : list column) (o : operand) : bool :=
  match o with
  | OCol n => bool_decide (is_Some (col_index cols n))
  | OLit _ => true
  end.

Definition eval_operand (cols : list column) (row : list pyval) (o : operand) : pyval :=
  match o with
  | OCol n => field cols row n
  | OLit s => PyStr s
  end.

(** SQL's three-valued logic: a comparison with NULL is unknown. *)
Definition sql_eq (a b : pyval) : option bool :=
  match a, b with
  | PyNone, _ | _, PyNone => None
  | _, _ => Some (bool_decide (a = b))
  end.

Definition sql_and (a b : option bool) : option bool :=
  match a, b with
  | Some false, _ | _, Some false => Some false
  | Some true, Some true => Some true
  | _, _ => None
  end.

Definition sql_or (a b : option bool) : option bool :=
  match a, b with
  | Some true, _ | _, Some true => Some true
  | Some false, Some false => Some false
  | _, _ => None
  end.

Definition eval_where (cols : list column) (cond : list (list (operand * operand)))
    (row : list pyval) : option bool :=
  foldr (fun g acc =>
           sql_or (foldr (fun '(a, b) acc' =>
                            sql_and (sql_eq (eval_operand cols row a)
                                            (eval_operand cols row b)) acc')
                         (Some true) g) acc)
        (Some false) cond.

(** A row goes when its WHERE clause is true (not when it is unknown). *)
Definition where_holds (cols : list column) (cond : list (list (operand * operand)))
    (row : list pyval) : bool :=
  bool_decide (eval_where cols cond row = Some true).

Definition pk_of (t : table) (row : list pyval) : list pyval :=
  map (field (tbl_cols t) row) (tbl_pk t).

Definition pk_taken (t : table) (row : list pyval) : bool :=
  match tbl_pk t with
  | [] => false
  | _ => existsb (fun r => bool_decide (pk_of t r = pk_of t row)) (tbl_rows t)
  end.

Definition notnull_ok (cols : list column) (row : list pyval) : bool :=
  forallb (fun '(c, v) => negb (col_notnull c && bool_decide (v = PyNone)))
          (zip cols row).

(** ** The engine *)

(** One statement run on one connection.  [inl] is the exception raised
    (nothing is changed), [inr] the database as the statement leaves it. *)
Definition sqlite_execute (db : database) (sql : string)
    (values : option (gmap string pyval)) : exn + database :=
  match parse_sql sql with
  | None => inl OperationalError
  | Some (SDelete tbl cond) =>
      match db !! tbl with
      | None => inl OperationalError
      | Some t =>
          if forallb (forallb (fun '(a, b) =>
                        operand_known (tbl_cols t) a && operand_known (tbl_cols t) b))
                     cond
          then inr (<[tbl := Table (tbl_cols t) (tbl_pk t)
                               (List.filter (fun r => negb (where_holds (tbl_cols t) cond r))
                                            (tbl_rows t))]> db)
          else inl OperationalError
      end
  | Some (SInsert tbl params) =>
      match db !! tbl with
      | None => inl OperationalError
      | Some t =>
          if negb (length params =? length (tbl_cols t))%nat then inl OperationalError
          else
            match values with
            | None => inl ProgrammingError
            | Some vals =>
                match mapM (fun p => vals !! p) params with
                | None => inl ProgrammingError
                | Some row =>
                    if negb (notnull_ok (tbl_cols t) row) then inl IntegrityError
                    else if pk_taken t row then inl IntegrityError
                    else inr (<[tbl := Table (tbl_cols t) (tbl_pk t)
                                         (tbl_rows t ++ [row])]> db)
                end
            end
      end
  end.

(** ** db.py *)

(** The database file at [dbpath] and what is outside the program: every
    state a commit has made visible to other connections (newest first),
    and how many values were drawn from [uuid.uuid4] and read from the
    clock so far. *)
Record world : Type := World {
  store : database;
  commits : list database;
  uuid_draws : nat;
  clock_reads : nat
}.

Inductive outcome (A : Type) : Type :=
| Returned (a : A)
| Raised (e : exn).
Arguments Returned {A} a.
Arguments Raised {A} e.

(** Calls thread the world and stop at the first exception. *)
Definition M (A : Type) : Type := world -> world * outcome A.

Definition ret {A} (a : A) : M A := fun w => (w, Returned a).
Definition raise {A} (e : exn) : M A := fun w => (w, Raised e).
Definition bind {A B} (m : M A) (k : A -> M B) : M B :=
  fun w => match m w with
           | (w', Returned a) => k a w'
           | (w', Raised e) => (w', Raised e)
           end.

Notation "'let*' x := m 'in' k" := (bind m (fun x => k))
  (at level 10, x name, m at level 100, k at level 200).

(** [d[key]] *)
Definition getitem (d : gmap string pyval) (key : string) : M pyval :=
  match d !! key with
  | Some v => ret v
  | None => raise (KeyError key)
  end.

(** [execute(dbpath, sql, values=None, timeout=120)]: connect, run the one
    statement, commit, close.  When the statement raises, the commit is
    never reached and the connection's changes are dropped with it. *)
Definition execute (sql : string) (values : option (gmap string pyval)) : M unit :=
  fun w =>
    match sqlite_execute (store w) sql values with
    | inl e => (w, Raised e)
    | inr db' =>
        (World db' (db' :: commits w) (uuid_draws w) (clock_reads w), Returned tt)
    end.

Definition opp_columns : list column :=
  [ Column "cruise" TEXT true; Column "file" TEXT true;
    Column "opp_count" INTEGER true; Column "evt_count" INTEGER true;
    Column "opp_evt_ratio" REAL true;
    Column "notch1" REAL true; Column "notch2" REAL true;
    Column "offset" REAL true; Column "origin" REAL true;
    Column "width" REAL true;
    Column "fsc_small_min" REAL true; Column "fsc_small_max" REAL true;
    Column "fsc_small_mean" REAL true;
    Column "fsc_perp_min" REAL true; Column "fsc_perp_max" REAL true;
    Column "fsc_perp_mean" REAL true;
    Column "fsc_big_min" REAL true; Column "fsc_big_max" REAL true;
    Column "fsc_big_mean" REAL true;
    Column "pe_min" REAL true; Column "pe_max" REAL true;
    Column "pe_mean" REAL true;
    Column "chl_small_min" REAL true; Column "chl_small_max" REAL true;
    Column "chl_small_mean" REAL true;
    Column "chl_big_min" REAL true; Column "chl_big_max" REAL true;
    Column "chl_big_mean" REAL true;
    Column "filter_id" TEXT true ].

Definition filter_columns : list column :=
  [ Column "id" TEXT true; Column "date" TEXT true;
    Column "notch1" REAL false; Column "notch2" REAL false;
    Column "offset" REAL true; Column "origin" REAL false;
    Column "width" REAL true ].

Definition vct_columns : list column :=
  [ Column "cruise" TEXT true; Column "file" TEXT true; Column "pop" TEXT true;
    Column "count" INTEGER true; Column "method" TEXT true;
    Column "fsc_small" REAL true; Column "fsc_perp" REAL true;
    Column "pe" REAL true; Column "chl_small" REAL true;
    Column "gating_id" TEXT true ].

Definition sfl_columns : list column :=
  [ Column "cruise" TEXT true; Column "file" TEXT true;
    Column "date" TEXT false; Column "file_duration" REAL false;
    Column "lat" REAL false; Column "lon" REAL false;
    Column "conductivity" REAL false; Column "salinity" REAL false;
    Column "ocean_tmp" REAL false; Column "par" REAL false;
    Column "bulk_red" REAL false; Column "stream_pressure" REAL false;
    Column "flow_rate" REAL false; Column "event_rate" REAL false ].

Definition cytdiv_columns : list column :=
  [ Column "cruise" TEXT true; Column "file" TEXT true;
    Column "N0" INTEGER false; Column "N1" REAL false; Column "H" REAL false;
    Column "J" REAL false; Column "opp_red" REAL false ].

Definition gating_columns : list column :=
  [ Column "id" TEXT true; Column "date" TEXT true; Column "pop_order" TEXT true ].

Definition poly_columns : list column :=
  [ Column "pop" TEXT true; Column "fsc_small" REAL false;
    Column "fsc_perp" REAL false; Column "fsc_big" REAL false;
    Column "pe" REAL false; Column "chl_small" REAL false;
    Column "chl_big" REAL false; Column "gating_id" TEXT true ].

(** [CREATE TABLE IF NOT EXISTS name (...)]: a table already there is left
    as it is. *)
Definition create_table_if_not_exists (name : string) (cols : list column)
    (pk : list string) (db : database) : database :=
  match db !! name with
  | Some _ => db
  | None => <[name := Table cols pk []]> db
  end.

(** [ensure_tables(dbpath)]: the seven CREATE statements and one commit. *)
Definition ensure_tables : M unit :=
  fun w =>
    let db :=
      create_table_if_not_exists "poly" poly_columns []
        (create_table_if_not_exists "gating" gating_columns ["id"]
        (create_table_if_not_exists "filter" filter_columns ["id"]
        (create_table_if_not_exists "cytdiv" cytdiv_columns ["cruise"; "file"]
        (create_table_if_not_exists "sfl" sfl_columns ["cruise"; "file"]
        (create_table_if_not_exists "opp" opp_columns ["cruise"; "file"]
        (create_table_if_not_exists "vct" vct_columns ["cruise"; "file"; "pop"]
           (store w))))))) in
    (World db (db :: commits w) (uuid_draws w) (clock_reads w), Returned tt).

Definition field_order : list string :=
  [ "cruise"; "file"; "opp_count"; "evt_count"; "opp_evt_ratio";
    "notch1"; "notch2"; "offset"; "origin"; "width";
    "fsc_small_min"; "fsc_small_max"; "fsc_small_mean";
    "fsc_perp_min"; "fsc_perp_max"; "fsc_perp_mean";
    "fsc_big_min"; "fsc_big_max"; "fsc_big_mean";
    "pe_min"; "pe_max"; "pe_mean";
    "chl_small_min"; "chl_small_max"; "chl_small_mean";
    "chl_big_min"; "chl_big_max"; "chl_big_mean";
    "filter_id" ].

(** The text of the DELETE statement, the two values spliced in by [%]. *)
Definition sql_delete (cruise file : pyval) : string :=
  "DELETE FROM opp WHERE cruise = '" +:+ py_str cruise
    +:+ "' AND file == '" +:+ py_str file +:+ "'".

Definition sql_insert : string :=
  "INSERT INTO opp VALUES (" +:+ py_join ", " (map (fun f => ":" +:+ f) field_order) +:+ ")".

(** [save_opp_stats(dbpath, vals)] *)
Definition save_opp_stats (vals : gmap string pyval) : M unit :=
  (* Erase existing entry first *)
  let* cruise := getitem vals "cruise" in
  let* file := getitem vals "file" in
  let* _ := execute (sql_delete cruise file) None in
  (* Construct values string with named placeholders *)
  execute sql_insert (Some vals).

Section Oracles.

(** [str(uuid.uuid4())] at the n-th draw and [util.iso8601_now()] at the
    n-th reading of the clock: both are outside db.py. *)
Variable uuid4 : nat -> string.
Variable iso8601_now : nat -> string.

Definition now : M string :=
  fun w => (World (store w) (commits w) (uuid_draws w) (S (clock_reads w)),
            Returned (iso8601_now (clock_reads w))).

Definition new_uuid : M string :=
  fun w => (World (store w) (commits w) (S (uuid_draws w)) (clock_reads w),
            Returned (uuid4 (uuid_draws w))).

Definition sql_insert_filter : string :=
  "INSERT INTO filter VALUES " +:+ "(:id, :date, :notch1, :notch2, :offset, :origin, :width)".

(** [save_filter_params(dbpath, filter_options)] *)
Definition save_filter_params (filter_options : gmap string pyval) : M string :=
  let* date := now in
  let values := <["date" := PyStr date]> filter_options in
  let* id := new_uuid in
  let values := <["id" := PyStr id]> values in
  let* _ := execute sql_insert_filter (Some values) in
  ret id.

End Oracles.

(** ** Reading the opp and filter tables *)

Definition rows_of (name : string) (db : database) : list (list pyval) :=
  match db !! name with
  | Some t => tbl_rows t
  | None => []
  end.

(** The rows [SELECT * FROM opp WHERE cruise = ? AND file = ?] returns. *)
Definition is_key (cruise file : string) (row : list pyval) : bool :=
  bool_decide (field opp_columns row "cruise" = PyStr cruise)
  && bool_decide (field opp_columns row "file" = PyStr file).

Definition rows_for (cruise file : string) (db : database) : list (list pyval) :=
  List.filter (is_key cruise file) (rows_of "opp" db).

(** The opp table as [ensure_tables] creates it, with some rows. *)
Definition has_opp_table (db : database) : Prop :=
  exists rows, db !! "opp" = Some (Table opp_columns ["cruise"; "file"] rows).

Definition has_filter_table (db : database) : Prop :=
  exists rows, db !! "filter" = Some (Table filter_columns ["id"] rows).

(** The row the INSERT of [save_opp_stats] binds from [vals]. *)
Definition row_of (vals : gmap string pyval) : list pyval :=
  map (fun f => default PyNone (vals !! f)) field_order.


Definition has_quote (s : string) : bool :=
  existsb (Ascii.eqb quote) (list_ascii_of_string s).

(** One save after the other, as reprocessing runs do. *)
Fixpoint save_all (vs : list (gmap string pyval)) : M unit :=
  match vs with
  | [] => ret tt
  | v :: vs' => let* _ := save_opp_stats v in save_all vs'
  end.

(** The store after the DELETE of [save_opp_stats] has committed. *)
Definition after_delete (cruise file : string) (w : world) : world :=
  let db := <["opp" := Table opp_columns ["cruise"; "file"]
                         (List.filter (fun r => negb (is_key cruise file r))
                                      (rows_of "opp" (store w)))]> (store w) in
  World db (db :: commits w) (uuid_draws w) (clock_reads w).

(** The statement the DELETE of [save_opp_stats] is meant to be. *)
Definition intended_delete (cruise file : string) : stmt :=
  SDelete "opp" [[(OCol "cruise", OLit cruise); (OCol "file", OLit file)]].

(** The store after the INSERT of [save_opp_stats] has committed [row]. *)
Definition after_insert (row : list pyval) (w : world) : world :=
  let db := <["opp" := Table opp_columns ["cruise"; "file"]
                         (rows_of "opp" (store w) ++ [row])]> (store w) in
  World db (db :: commits w) (uuid_draws w) (clock_reads w).

(** The primary key of an opp row. *)
Definition opp_pk (row : list pyval) : list pyval :=
  [field opp_columns row "cruise"; field opp_columns row "file"].

(** ** Counting quotes

    Measures used to relate a SQL text to its tokens: every quote
    character of a text that tokenizes is the opening or closing quote of
    a string literal, or one half of an escaped quote inside one. *)

Fixpoint lex_feed (m : lex_mode) (cs : list ascii) : option (lex_mode * list token) :=
  match cs with
  | [] => Some (m, [])
  | c :: cs' =>
      '(m', ts) ← lex_step m c;
      '(m'', ts') ← lex_feed m' cs';
      Some (m'', ts ++ ts')
  end.

Definition quotes (cs : list ascii) : nat := length (List.filter (Ascii.eqb quote) cs).

Definition tok_quotes (t : token) : nat :=
  match t with
  | TStr s => 2 + 2 * quotes (list_ascii_of_string s)
  | _ => 0
  end.

Fixpoint toks_quotes (ts : list token) : nat :=
  match ts with
  | [] => 0
  | t :: ts' => tok_quotes t + toks_quotes ts'
  end.

Definition mode_quotes (m : lex_mode) : nat :=
  match m with
  | LStr acc => 1 + 2 * quotes acc
  | LStrQ acc => 2 + 2 * quotes acc
  | _ => 0
  end.

Definition operand_quotes (o : operand) : nat :=
  match o with
  | OLit s => 2 + 2 * quotes (list_ascii_of_string s)
  | OCol _ => 0
  end.

Fixpoint group_quotes (g : list (operand * operand)) : nat :=
  match g with
  | [] => 0
  | (a, b) :: g' => operand_quotes a + operand_quotes b + group_quotes g'
  end.

Fixpoint cond_quotes (cond : list (list (operand * operand))) : nat :=
  match cond with
  | [] => 0
  | g :: gs => group_quotes g + cond_quotes gs
  end.

(** ** Reading the filter table *)

Definition filter_params : list string :=
  ["id"; "date"; "notch1"; "notch2"; "offset"; "origin"; "width"].

(** The ids of the rows of the filter table. *)
Definition filter_ids (db : database) : list pyval :=
  map (fun r => field filter_columns r "id") (rows_of "filter" db).

(** The row [save_filter_params] inserts for [filter_options] under the
    identifier [id] at the time [date]; an option that is [None] is stored
    as NULL. *)
Definition filter_row (id date : string) (filter_options : gmap string pyval) : list pyval :=
  [ PyStr id; PyStr date;
    default PyNone (filter_options !! "notch1");
    default PyNone (filter_options !! "notch2");
    default PyNone (filter_options !! "offset");
    default PyNone (filter_options !! "origin");
    default PyNone (filter_options !! "width") ].

(** The five options are bound, to a value or to [None]. *)
Definition has_options (filter_options : gmap string pyval) : Prop :=
  Forall (fun k => is_Some (filter_options !! k))
         ["notch1"; "notch2"; "offset"; "origin"; "width"].

(** ** Data of the tests *)

(** A database file just created and passed to [ensure_tables], as the
    [tmpout] fixture makes it. *)
Definition fresh_world : world := fst (ensure_tables (World ∅ [] 0 0)).

Definition test_file : string := "2014_185/2014-07-04T00-00-02+00-00".

(** The summary of the test file filtered with the default options;
    floats as the tests write them. *)
Definition testcruise_vals (filter_id : string) : gmap string pyval :=
  list_to_map
    [ ("cruise", PyStr "testcruise"); ("file", PyStr test_file);
      ("opp_count", PyInt 345); ("evt_count", PyInt 40000);
      ("opp_evt_ratio", PyFloat "0.008625");
      ("notch1", PyFloat "0.7668803418803419");
      ("notch2", PyFloat "0.7603813559322034");
      ("offset", PyFloat "0.0"); ("origin", PyFloat "-1792.0");
      ("width", PyFloat "0.5");
      ("fsc_small_min", PyFloat "1.1612919251372618");
      ("fsc_small_max", PyFloat "1166.1984528866317");
      ("fsc_small_mean", PyFloat "23.187903329680267");
      ("fsc_perp_min", PyFloat "58.340254959965897");
      ("fsc_perp_max", PyFloat "58.642349877876896");
      ("fsc_perp_mean", PyFloat "58.42582313084556");
      ("fsc_big_min", PyFloat "1.4249794251756174");
      ("fsc_big_max", PyFloat "3.380108678220699");
      ("fsc_big_mean", PyFloat "2.2238485381723674");
      ("pe_min", PyFloat "1.0");
      ("pe_max", PyFloat "1269.1578052463431");
      ("pe_mean", PyFloat "74.84328753100617");
      ("chl_small_min", PyFloat "1.3345760374616036");
      ("chl_small_max", PyFloat "922.19096252450186");
      ("chl_small_mean", PyFloat "22.266367429741198");
      ("chl_big_min", PyFloat "53.357532766135428");
      ("chl_big_max", PyFloat "53.64042220069004");
      ("chl_big_mean", PyFloat "53.46595431797728");
      ("filter_id", PyStr filter_id) ].

(** The store of [test_sqlite3_opp_overwrite] after its first save. *)
Definition stored_world : world :=
  fst (save_opp_stats (testcruise_vals "UUID1") fresh_world).

(** The options of [test_sqlite3_filter_params]. *)
Definition test_filter_options : gmap string pyval :=
  list_to_map
    [ ("notch1", PyNone); ("notch2", PyNone); ("offset", PyFloat "0.0");
      ("origin", PyNone); ("width", PyFloat "0.5") ].

(** A stand-in for [uuid.uuid4] and for the clock where a concrete run is
    needed: the n-th identifier and the n-th reading are numbered. *)
Definition numbered_uuid (n : nat) : string := "uuid-" +:+ pretty n.
Definition numbered_time (n : nat) : string := "2014-07-04T00:00:0" +:+ pretty n.

(** ** Invariants of the two tables *)

(** No two rows of the opp table share a (cruise, file) key, and no two
    rows of the filter table share an id: what the PRIMARY KEY clauses of
    [ensure_tables] ask for. *)
Definition opp_keys_unique (db : database) : Prop :=
  NoDup (map opp_pk (rows_of "opp" db)).

Definition filter_ids_unique (db : database) : Prop :=
  NoDup (filter_ids db).

(** The names of the tables [ensure_tables] creates. *)
Definition table_names : list string :=
  ["vct"; "opp"; "sfl"; "cytdiv"; "filter"; "gating"; "poly"].

(** The store after a DELETE on the opp table has committed, [gone]
    telling the rows its WHERE clause holds of. *)
Definition after_delete_where (gone : list pyval -> bool) (w : world) : world :=
  let db := <["opp" := Table opp_columns ["cruise"; "file"]
                         (List.filter (fun r => negb (gone r))
                                      (rows_of "opp" (store w)))]> (store w) in
  World db (db :: commits w) (uuid_draws w) (clock_reads w).

(** Every placeholder of the INSERT has a binding in [vals]. *)
Definition bound (vals : gmap string pyval) : Prop :=
  Forall (fun f => is_Some (vals !! f)) field_order.

(** * cli/commands/evt_cmd.py

    The [count] and [validate] commands and [expand_file_list].  The
    commands read the file system and the EVT/OPP readers of the package;
    these are the variables of the section below, functions of the path, so
    the files are taken not to change while a command runs.  A reader either
    returns or raises [errors.FileError]: the text of the error is the left
    injection.  What a command prints is the list of its lines. *)

(** What the commands use of a [seaflowfile.SeaFlowFile]. *)
Record SeaFlowFile := { file_id : string; is_evt : bool; is_opp : bool }.

Record console := { stdout : list string; stderr : list string }.

Definition tab : string := String "009"%char EmptyString.

(** What the loop of [validate_evt_cmd] has found for one file. *)
Record verdict := {
  v_file_id : string;
  v_filetype : string;
  v_status : string;
  v_events : nat;
  v_passed : bool            (* [ok += 1] rather than [bad += 1] *)
}.

(** The variables a loop carries from one file to the next. *)
Record progress := {
  header_printed : bool;
  ok : nat;
  bad : nat;
  printed : list string
}.

Section EvtCmd.

Variable isdir : string -> bool.
Variable isfile : string -> bool.
(** [seaflowfile.find_evt_files(d, opp=...)] *)
Variable find_evt_files : string -> bool -> list string.
(** [seaflowfile.SeaFlowFile(path)]; [None] is [errors.FileError]. *)
Variable new_SeaFlowFile : string -> option SeaFlowFile.
(** [len(fileio.read_evt_labview(path).index)], or the text of the error. *)
Variable read_evt_labview : string -> string + nat.
Variable read_opp_labview : string -> string + nat.
(** [fileio.read_labview_row_count(path)]; [None] is [errors.FileError]. *)
Variable read_labview_row_count : string -> option nat.

Definition expand_file_list (files_and_dirs : list string) : list string :=
  let dirs := List.filter isdir files_and_dirs in
  let files := List.filter isfile files_and_dirs in
  let dfiles :=
    fold_left (fun dfiles d =>
                 let evt_files := find_evt_files d false in
                 let opp_files := find_evt_files d true in
                 (dfiles ++ evt_files) ++ opp_files)
              dirs [] in
  files ++ dfiles.

(** One turn of the loop of [validate_evt_cmd], up to the printing.
    [type_from_filename] only ever holds one of the three texts, so the
    last [elif] is the remaining case. *)
Definition examine (filepath : string) : verdict :=
  let '(type_from_filename, filetype, file_id) :=
    match new_SeaFlowFile filepath with
    | Some sff =>
        if is_evt sff then ("evt", "evt", file_id sff)
        else if is_opp sff then ("opp", "opp", file_id sff)
        else ("-", "-", file_id sff)
    | None => ("-", "-", "-")
    end in
  if String.eqb type_from_filename "evt" then
    match read_evt_labview filepath with
    | inr events => Build_verdict file_id filetype "OK" events true
    | inl e => Build_verdict file_id filetype e 0 false
    end
  else if String.eqb type_from_filename "opp" then
    match read_opp_labview filepath with
    | inr events => Build_verdict file_id filetype "OK" events true
    | inl e => Build_verdict file_id filetype e 0 false
    end
  else
    match read_evt_labview filepath with
    | inr events => Build_verdict file_id "evt" "OK" events true
    | inl _ =>
        match read_opp_labview filepath with
        | inr events => Build_verdict file_id "opp" "OK" events true
        | inl e => Build_verdict file_id filetype e 0 false
        end
    end.

Definition validate_header : string :=
  py_join tab ["path"; "file_id"; "type"; "status"; "events"].

Definition validate_row (filepath : string) (v : verdict) : string :=
  py_join tab [filepath; v_file_id v; v_filetype v; v_status v; pretty (v_events v)].

(** [(report_all and status == 'OK') or (status != 'OK')] *)
Definition listed (report_all : bool) (v : verdict) : bool :=
  (report_all && String.eqb (v_status v) "OK") || negb (String.eqb (v_status v) "OK").

Definition validate_step (report_all : bool) (st : progress) (filepath : string)
  : progress :=
  let v := examine filepath in
  let ok' := if v_passed v then S (ok st) else ok st in
  let bad' := if v_passed v then bad st else S (bad st) in
  let out := if header_printed st then printed st
             else printed st ++ [validate_header] in
  let out := if listed report_all v then out ++ [validate_row filepath v]
             else out in
  Build_progress true ok' bad' out.

Definition validate_summary (ok total : nat) : string :=
  pretty ok +:+ "/" +:+ pretty total +:+ " files passed validation".

Definition validate_evt_cmd (report_all : bool) (files : list string) : console :=
  match files with
  | [] => Build_console [] []
  | _ =>
      let files := expand_file_list files in
      let st := fold_left (validate_step report_all) files
                          (Build_progress false 0 0 []) in
      Build_console (printed st) [validate_summary (ok st) (bad st + ok st)]
  end.

Definition count_header : string :=
  py_join tab ["path"; "file_id"; "type"; "events"].

(** The line [count_evt_cmd] prints for one file. *)
Definition count_row (filepath : string) : string :=
  let '(filetype, file_id) :=
    match new_SeaFlowFile filepath with
    | Some sff => (if is_opp sff then "opp" else "evt", file_id sff)
    | None => ("-", "-")
    end in
  let events :=
    match read_labview_row_count filepath with
    | Some n => n
    | None => 0%nat
    end in
  py_join tab [filepath; file_id; filetype; pretty events].

Definition count_step (no_header : bool) (st : bool * list string) (filepath : string)
  : bool * list string :=
  let '(header_printed, out) := st in
  let '(header_printed, out) :=
    if negb header_printed && negb no_header then (true, out ++ [count_header])
    else (header_printed, out) in
  (header_printed, out ++ [count_row filepath]).

Definition count_evt_cmd (no_header : bool) (evt_files : list string) : list string :=
  match evt_files with
  | [] => []
  | _ =>
      let files := expand_file_list evt_files in
      snd (fold_left (count_step no_header) files (false, []))
  end.

End EvtCmd.

(** The files of a list that pass [validate], and those it lists. *)
Definition passing new_SeaFlowFile read_evt read_opp (files : list string) : list string :=
  List.filter (fun f => v_passed (examine new_SeaFlowFile read_evt read_opp f)) files.

Definition listing new_SeaFlowFile read_evt read_opp (report_all : bool)
    (files : list string) : list string :=
  map (fun f => validate_row f (examine new_SeaFlowFile read_evt read_opp f))
      (List.filter (fun f => listed report_all (examine new_SeaFlowFile read_evt read_opp f))
                   files).

(** Two files of which only the first can be read, for a concrete run. *)
Definition first_readable (path : string) : string + nat :=
  if String.eqb path "a.evt" then inr 3%nat else inl "File has no particles".

(** * Proofs: the tokenizer and the parser *)

Lemma chars_app a b : list_ascii_of_string (a +:+ b) = list_ascii_of_string a ++ list_ascii_of_string b.
Proof. induction a as [|c a IH]; simpl; [done|]. by rewrite IH. Qed.

Lemma lex_run_app m xs ys :
  lex_run m (xs ++ ys) =
  '(m', ts) ← lex_feed m xs; rest ← lex_run m' ys; Some (ts ++ rest).
Proof.
  revert m. induction xs as [|c xs IH]; intros m; simpl.
  - by destruct (lex_run m ys).
  - destruct (lex_step m c) as [[m1 ts1]|]; simpl; [|done].
    rewrite IH. destruct (lex_feed m1 xs) as [[m2 ts2]|]; simpl; [|done].
    destruct (lex_run m2 ys); simpl; [|done]. by rewrite app_assoc.
Qed.

Lemma has_quote_cons c s :
  has_quote (String c s) = Ascii.eqb quote c || has_quote s.
Proof. reflexivity. Qed.

Lemma lex_run_body acc x rest :
  has_quote x = false ->
  lex_run (LStr acc) (list_ascii_of_string x ++ rest)
  = lex_run (LStr (acc ++ list_ascii_of_string x)) rest.
Proof.
  revert acc. induction x as [|c x IH]; intros acc Hq; simpl.
  - by rewrite app_nil_r.
  - rewrite has_quote_cons in Hq. apply orb_false_iff in Hq as [Hc Hx].
    rewrite Ascii.eqb_sym, Hc. simpl. rewrite IH by done.
    rewrite <- app_assoc. simpl. by destruct (lex_run _ rest).
Qed.

Lemma lex_feed_head :
  lex_feed LTop (list_ascii_of_string "DELETE FROM opp WHERE cruise = '")
  = Some (LStr [], [TWord "delete"; TWord "from"; TWord "opp"; TWord "where"; TWord "cruise"; TEq]).
Proof. vm_compute. reflexivity. Qed.

Lemma tokenize_sql_delete c f :
  has_quote c = false -> has_quote f = false ->
  tokenize (sql_delete (PyStr c) (PyStr f)) =
  Some [TWord "delete"; TWord "from"; TWord "opp"; TWord "where";
        TWord "cruise"; TEq; TStr c; TWord "and"; TWord "file"; TEq; TStr f].
Proof.
  intros Hc Hf. unfold tokenize, sql_delete. simpl py_str.
  rewrite !chars_app, lex_run_app, lex_feed_head. simpl.
  rewrite lex_run_body by done. simpl.
  rewrite lex_run_body by done. simpl.
  unfold text. by rewrite !string_of_list_ascii_of_string.
Qed.

Lemma parse_sql_delete c f :
  has_quote c = false -> has_quote f = false ->
  parse_sql (sql_delete (PyStr c) (PyStr f)) = Some (intended_delete c f).
Proof.
  intros Hc Hf. unfold parse_sql. rewrite tokenize_sql_delete by done. reflexivity.
Qed.

Lemma quotes_app a b : quotes (a ++ b) = (quotes a + quotes b)%nat.
Proof. unfold quotes. by rewrite List.filter_app, length_app. Qed.

Lemma toks_quotes_app a b : toks_quotes (a ++ b) = (toks_quotes a + toks_quotes b)%nat.
Proof. induction a as [|t a IH]; cbn [toks_quotes app]; lia. Qed.

Lemma quotes_text acc : quotes (list_ascii_of_string (text acc)) = quotes acc.
Proof. unfold text. by rewrite list_ascii_of_string_of_list_ascii. Qed.

Lemma quotes_cons c cs :
  quotes (c :: cs) = ((if Ascii.eqb quote c then 1 else 0) + quotes cs)%nat.
Proof. unfold quotes. cbn [List.filter]. by destruct (Ascii.eqb quote c). Qed.

Lemma quotes_nil : quotes [] = 0%nat.
Proof. reflexivity. Qed.

Lemma eqb_quote_ne c : c <> quote -> Ascii.eqb quote c = false.
Proof. intros H. by destruct (Ascii.eqb_spec quote c) as [<-|]. Qed.

Lemma toks_quotes_cons t ts : toks_quotes (t :: ts) = (tok_quotes t + toks_quotes ts)%nat.
Proof. reflexivity. Qed.

Lemma lex_top_quotes c m ts :
  lex_top c = Some (m, ts) ->
  (quotes [c] = toks_quotes ts + mode_quotes m)%nat.
Proof.
  unfold lex_top. rewrite quotes_cons, quotes_nil.
  destruct (Ascii.eqb_spec c quote) as [->|Hq].
  { by intros [= <- <-]. }
  rewrite eqb_quote_ne by done.
  repeat (case_match; [by intros [= <- <-]|]). done.
Qed.

Lemma word_char_not_quote c : is_word_char c = true -> Ascii.eqb quote c = false.
Proof. by destruct (Ascii.eqb_spec quote c) as [<-|]. Qed.

Lemma lex_step_quotes m c m' ts :
  lex_step m c = Some (m', ts) ->
  (mode_quotes m + quotes [c] = toks_quotes ts + mode_quotes m')%nat.
Proof.
  destruct m as [|acc|acc|acc|acc|]; cbn [lex_step].
  - intros H. by apply lex_top_quotes in H.
  - destruct (is_word_char c) eqn:Hw.
    + intros [= <- <-]. by rewrite quotes_cons, word_char_not_quote.
    + destruct (lex_top c) as [[m1 ts1]|] eqn:Ht; simpl; [|done].
      intros [= <- <-]. apply lex_top_quotes in Ht. rewrite toks_quotes_cons. simpl. lia.
  - destruct (is_word_char c) eqn:Hw.
    + intros [= <- <-]. by rewrite quotes_cons, word_char_not_quote.
    + destruct acc; [done|].
      destruct (lex_top c) as [[m1 ts1]|] eqn:Ht; simpl; [|done].
      intros [= <- <-]. apply lex_top_quotes in Ht. rewrite toks_quotes_cons. simpl. lia.
  - destruct (Ascii.eqb_spec c quote) as [->|Hq]; intros [= <- <-].
    + rewrite quotes_cons, quotes_nil, Ascii.eqb_refl.
      cbn [toks_quotes mode_quotes]. lia.
    + cbn [mode_quotes]. rewrite quotes_app, !quotes_cons, eqb_quote_ne by done.
      rewrite quotes_nil. cbn [toks_quotes]. lia.
  - destruct (Ascii.eqb_spec c quote) as [->|Hq].
    + intros [= <- <-]. cbn [mode_quotes].
      rewrite quotes_app, !quotes_cons, quotes_nil, Ascii.eqb_refl.
      cbn [toks_quotes]. lia.
    + destruct (lex_top c) as [[m1 ts1]|] eqn:Ht; simpl; [|done].
      intros [= <- <-]. apply lex_top_quotes in Ht. rewrite toks_quotes_cons.
      cbn [tok_quotes]. rewrite quotes_text. lia.
  - destruct (Ascii.eqb_spec c "="%char) as [->|Hq].
    + by intros [= <- <-].
    + destruct (lex_top c) as [[m1 ts1]|] eqn:Ht; simpl; [|done].
      intros [= <- <-]. apply lex_top_quotes in Ht. rewrite toks_quotes_cons. simpl. lia.
Qed.

Lemma lex_run_quotes m cs ts :
  lex_run m cs = Some ts ->
  (mode_quotes m + quotes cs = toks_quotes ts)%nat.
Proof.
  revert m ts. induction cs as [|c cs IH]; intros m ts; cbn [lex_run].
  - rewrite quotes_nil.
    destruct m as [|acc|[|a acc]|acc|acc|]; simpl; try done; intros [= <-];
      cbn [toks_quotes tok_quotes mode_quotes]; rewrite ?quotes_text; lia.
  - destruct (lex_step m c) as [[m1 ts1]|] eqn:Hs; simpl; [|done].
    destruct (lex_run m1 cs) as [rest|] eqn:Hr; simpl; [|done].
    intros [= <-]. apply lex_step_quotes in Hs. apply IH in Hr.
    rewrite toks_quotes_app. change (c :: cs) with ([c] ++ cs). rewrite quotes_app. lia.
Qed.

Lemma operand_of_quotes t o : operand_of t = Some o -> tok_quotes t = operand_quotes o.
Proof.
  destruct t; simpl; try done.
  - case_bool_decide; [done|]. by intros [= <-].
  - by intros [= <-].
Qed.

Lemma parse_where_quotes n ts cond :
  (length ts <= n)%nat ->
  parse_where ts = Some cond -> toks_quotes ts = cond_quotes cond.
Proof.
  revert ts cond. induction n as [|n IH]; intros ts cond Hn.
  { destruct ts; [done|simpl in Hn; lia]. }
  destruct ts as [|a [|e [|b tl]]]; try done.
  { simpl. by destruct e. }
  destruct e; try done. cbn [parse_where].
  destruct (operand_of a) as [x|] eqn:Ha; [|done].
  destruct (operand_of b) as [y|] eqn:Hb; [|done].
  apply operand_of_quotes in Ha, Hb. cbn [mbind option_bind].
  cbn [toks_quotes]. rewrite Ha, Hb. cbn [tok_quotes].
  destruct tl as [|[w| | | | | |] tl']; try done.
  { intros [= <-]. cbn [cond_quotes group_quotes toks_quotes]. lia. }
  simpl in Hn.
  destruct (String.eqb w "and").
  { destruct (parse_where tl') as [[|g gs]|] eqn:Hp; try done.
    intros [= <-]. apply IH in Hp; [|lia].
    cbn [cond_quotes group_quotes toks_quotes tok_quotes] in *. lia. }
  destruct (String.eqb w "or"); [|done].
  destruct (parse_where tl') as [gs|] eqn:Hp; [|done].
  intros [= <-]. apply IH in Hp; [|lia].
  cbn [cond_quotes group_quotes toks_quotes tok_quotes] in *. lia.
Qed.

Lemma parse_tokens_delete_quotes ts tbl cond :
  parse_tokens ts = Some (SDelete tbl cond) -> toks_quotes ts = cond_quotes cond.
Proof.
  unfold parse_tokens.
  destruct ts as [|[k1| | | | | |] [|[k2| | | | | |] [|[t| | | | | |] [|[k3| | | | | |] tl]]]]; try done.
  case_bool_decide; [done|].
  destruct (_ && _).
  { destruct (parse_where tl) as [c|] eqn:Hp; [|done]. intros [= <- <-].
    cbn [toks_quotes tok_quotes]. simpl. by eapply parse_where_quotes. }
  destruct (_ && _); [|done].
  destruct tl as [|[] tl']; try done. by destruct (parse_params tl').
Qed.

Lemma has_quote_quotes s : has_quote s = false <-> quotes (list_ascii_of_string s) = 0%nat.
Proof.
  unfold has_quote. induction (list_ascii_of_string s) as [|c cs IH].
  - done.
  - rewrite quotes_cons. cbn [existsb]. destruct (Ascii.eqb quote c); simpl; [split; [done|lia]|done].
Qed.

Lemma parse_sql_delete_inv c f :
  parse_sql (sql_delete (PyStr c) (PyStr f)) = Some (intended_delete c f) ->
  has_quote c = false /\ has_quote f = false.
Proof.
  unfold parse_sql, tokenize. simpl py_str.
  destruct (lex_run _ _) as [ts|] eqn:Hl; [|done]. cbn [mbind option_bind].
  intros Hp. apply parse_tokens_delete_quotes in Hp. apply lex_run_quotes in Hl.
  unfold sql_delete in Hl. cbn [py_str] in Hl. rewrite !chars_app, !quotes_app in Hl.
  rewrite Hp in Hl. cbn in Hl.
  rewrite !has_quote_quotes. lia.
Qed.

(** * Proofs: the engine on the statements of db.py *)

Lemma parse_sql_insert : parse_sql sql_insert = Some (SInsert "opp" field_order).
Proof. vm_compute. reflexivity. Qed.

Lemma where_holds_intended c f r :
  where_holds opp_columns [[(OCol "cruise", OLit c); (OCol "file", OLit f)]] r
  = is_key c f r.
Proof.
  unfold where_holds, is_key, eval_where. cbn [foldr eval_operand].
  destruct (field opp_columns r "cruise") as [|z|x|s] eqn:Hc;
    destruct (field opp_columns r "file") as [|z'|x'|s'] eqn:Hf;
    cbn [sql_eq sql_and sql_or];
    repeat case_bool_decide; simplify_eq; try done.
Qed.

Lemma rows_of_lookup db name t : db !! name = Some t -> rows_of name db = tbl_rows t.
Proof. unfold rows_of. by intros ->. Qed.

Lemma execute_delete c f w :
  has_quote c = false -> has_quote f = false ->
  has_opp_table (store w) ->
  execute (sql_delete (PyStr c) (PyStr f)) None w = (after_delete c f w, Returned tt).
Proof.
  intros Hc Hf [rows Ht]. unfold execute, sqlite_execute, after_delete.
  rewrite parse_sql_delete by done. unfold intended_delete. rewrite Ht.
  cbn [tbl_cols tbl_pk tbl_rows]. rewrite (rows_of_lookup _ _ _ Ht).
  cbn [tbl_rows].
  replace (forallb _ _) with true by (vm_compute; reflexivity).
  erewrite List.filter_ext; [reflexivity|].
  intros r. by rewrite where_holds_intended.
Qed.

Lemma mapM_lookup (vals : gmap string pyval) (names : list string) :
  Forall (fun f => is_Some (vals !! f)) names ->
  mapM (fun p => vals !! p) names = Some (map (fun f => default PyNone (vals !! f)) names).
Proof.
  induction 1 as [|f names [v Hv] _ IH]; [done|].
  cbn [mapM map]. rewrite Hv, IH. reflexivity.
Qed.

Lemma mapM_lookup_inv (vals : gmap string pyval) (names : list string) row :
  mapM (fun p => vals !! p) names = Some row ->
  row = map (fun f => default PyNone (vals !! f)) names
  /\ Forall (fun f => is_Some (vals !! f)) names.
Proof.
  revert row. induction names as [|f names IH]; intros row; cbn [mapM map].
  - by intros [= <-].
  - destruct (vals !! f) as [v|] eqn:Hv; [|done]. cbn [mbind option_bind].
    destruct (mapM _ names) as [row'|]; [|done]. cbn.
    intros [= <-]. destruct (IH row' eq_refl) as [-> HF].
    split; [done|]. constructor; [by eexists|done].
Qed.




Lemma opp_pk_row_of vals :
  opp_pk (row_of vals)
  = [default PyNone (vals !! "cruise"); default PyNone (vals !! "file")].
Proof. reflexivity. Qed.

Lemma opp_pk_row_of_key c f vals :
  vals !! "cruise" = Some (PyStr c) -> vals !! "file" = Some (PyStr f) ->
  opp_pk (row_of vals) = [PyStr c; PyStr f].
Proof. intros Hc Hf. rewrite opp_pk_row_of, Hc, Hf. reflexivity. Qed.

Lemma is_key_pk c f r : is_key c f r = bool_decide (opp_pk r = [PyStr c; PyStr f]).
Proof.
  unfold is_key, opp_pk.
  repeat case_bool_decide; simplify_eq; try done. congruence.
Qed.

Lemma is_key_row_of c f vals :
  vals !! "cruise" = Some (PyStr c) -> vals !! "file" = Some (PyStr f) ->
  is_key c f (row_of vals) = true.
Proof.
  intros Hc Hf. rewrite is_key_pk, (opp_pk_row_of_key c f) by done.
  by apply bool_decide_eq_true.
Qed.

(** What [execute] does with the INSERT of [save_opp_stats] on an opp table. *)
Lemma execute_insert w rows vals :
  store w !! "opp" = Some (Table opp_columns ["cruise"; "file"] rows) ->
  execute sql_insert (Some vals) w =
  match mapM (fun p => vals !! p) field_order with
  | None => (w, Raised ProgrammingError)
  | Some row =>
      if negb (notnull_ok opp_columns row) then (w, Raised IntegrityError)
      else if existsb (fun r => bool_decide (opp_pk r = opp_pk row)) rows
           then (w, Raised IntegrityError)
           else (after_insert row w, Returned tt)
  end.
Proof.
  intros Ht. unfold execute, sqlite_execute, after_insert.
  rewrite parse_sql_insert, Ht. rewrite (rows_of_lookup _ _ _ Ht).
  cbn [tbl_cols tbl_pk tbl_rows].
  replace (negb (_ =? _)%nat) with false by (vm_compute; reflexivity).
  destruct (mapM _ field_order) as [row|]; [|done].
  destruct (negb (notnull_ok opp_columns row)); [done|].
  unfold pk_taken. cbn [tbl_pk tbl_rows]. unfold pk_of. cbn [tbl_cols tbl_pk map].
  fold (opp_pk row).
  by destruct (existsb _ rows).
Qed.

(** * Proofs: save_opp_stats *)

Lemma filter_not_then l (p : list pyval -> bool) :
  List.filter p (List.filter (fun r => negb (p r)) l) = [].
Proof.
  induction l as [|r l IH]; [done|]. cbn [List.filter].
  destruct (p r) eqn:Hp; cbn [negb List.filter]; [done|]. by rewrite Hp.
Qed.

Lemma has_opp_table_after_delete c f w : has_opp_table (store (after_delete c f w)).
Proof. eexists. unfold after_delete. cbn [store]. apply lookup_insert_eq. Qed.

Lemma has_opp_table_after_insert row w : has_opp_table (store (after_insert row w)).
Proof. eexists. unfold after_insert. cbn [store]. apply lookup_insert_eq. Qed.

Lemma rows_of_after_delete c f w :
  rows_of "opp" (store (after_delete c f w))
  = List.filter (fun r => negb (is_key c f r)) (rows_of "opp" (store w)).
Proof. unfold after_delete, rows_of at 1. cbn [store]. by rewrite lookup_insert_eq. Qed.

Lemma rows_of_after_insert row w :
  rows_of "opp" (store (after_insert row w)) = rows_of "opp" (store w) ++ [row].
Proof. unfold after_insert, rows_of at 1. cbn [store]. by rewrite lookup_insert_eq. Qed.

Lemma rows_for_after_delete c f w : rows_for c f (store (after_delete c f w)) = [].
Proof. unfold rows_for. rewrite rows_of_after_delete. apply filter_not_then. Qed.


Lemma no_pk_no_key c f rows :
  existsb (fun r => bool_decide (opp_pk r = [PyStr c; PyStr f])) rows = false ->
  List.filter (is_key c f) rows = [].
Proof.
  induction rows as [|r rows IH]; [done|]. cbn [List.filter existsb].
  rewrite <- is_key_pk. destruct (is_key c f r); [done|]. exact IH.
Qed.

(** With text values for cruise and file, the two subscripts succeed and
    the call is the DELETE followed by the INSERT. *)
Lemma save_opp_stats_text vals c f w :
  vals !! "cruise" = Some (PyStr c) -> vals !! "file" = Some (PyStr f) ->
  save_opp_stats vals w =
  match execute (sql_delete (PyStr c) (PyStr f)) None w with
  | (w1, Returned _) => execute sql_insert (Some vals) w1
  | (w1, Raised e) => (w1, Raised e)
  end.
Proof.
  intros Hc Hf. unfold save_opp_stats, bind, getitem. rewrite Hc, Hf. reflexivity.
Qed.

(** The DELETE text always names the opp table: when it runs, the table
    keeps its columns and key and loses some rows. *)
Lemma execute_delete_shape cruise file w w' :
  has_opp_table (store w) ->
  execute (sql_delete cruise file) None w = (w', Returned tt) ->
  has_opp_table (store w').
Proof.
  intros [rows Ht]. unfold execute, sqlite_execute, parse_sql, tokenize, sql_delete.
  rewrite chars_app, lex_run_app, lex_feed_head. cbn [mbind option_bind].
  destruct (lex_run (LStr []) _) as [rest|]; cbn [mbind option_bind]; [|done].
  cbn [app parse_tokens].
  replace (bool_decide ("opp" ∈ keywords)) with false by (vm_compute; reflexivity).
  cbn [String.eqb Ascii.eqb Bool.eqb andb].
  destruct (parse_where _) as [cond|]; cbn [mbind option_bind]; [|done].
  rewrite Ht. destruct (forallb _ cond); [|done].
  intros [= <-]. eexists. cbn [store tbl_cols tbl_pk]. apply lookup_insert_eq.
Qed.

(** A save that returns leaves exactly its own row under its key. *)
Lemma save_opp_stats_returns vals c f w w' :
  has_opp_table (store w) ->
  vals !! "cruise" = Some (PyStr c) -> vals !! "file" = Some (PyStr f) ->
  save_opp_stats vals w = (w', Returned tt) ->
  has_opp_table (store w') /\ rows_for c f (store w') = [row_of vals].
Proof.
  intros Ht Hc Hf. rewrite (save_opp_stats_text _ _ _ _ Hc Hf).
  destruct (execute (sql_delete _ _) None w) as [w1 [[]|e]] eqn:Hd; [|done].
  apply execute_delete_shape in Hd; [|done]. destruct Hd as [rows1 Ht1].
  rewrite (execute_insert _ _ _ Ht1).
  destruct (mapM _ field_order) as [row|] eqn:Hm; [|done].
  apply mapM_lookup_inv in Hm as [-> _]. fold (row_of vals).
  destruct (negb (notnull_ok _ _)); [done|].
  destruct (existsb _ rows1) eqn:Hex; [done|].
  intros [= <-]. split; [apply has_opp_table_after_insert|].
  unfold rows_for. rewrite rows_of_after_insert, (rows_of_lookup _ _ _ Ht1).
  cbn [tbl_rows]. rewrite List.filter_app. cbn [List.filter].
  rewrite (is_key_row_of _ _ _ Hc Hf).
  rewrite (opp_pk_row_of_key c f) in Hex by done.
  by rewrite (no_pk_no_key _ _ _ Hex).
Qed.






(** C1, as the code has it.  [save_opp_stats] runs the DELETE and the INSERT
    as two transactions, each committed by its own [execute]: the DELETE
    commits a store with no row for the key; the INSERT then either
    commits the new row or raises and leaves the store as the DELETE left
    it. *)
Theorem save_opp_stats_two_commits
    (w : world) (vals : gmap string pyval) (c f : string) :
  has_opp_table (store w) ->
  vals !! "cruise" = Some (PyStr c) -> vals !! "file" = Some (PyStr f) ->
  has_quote c = false -> has_quote f = false ->
  commits (after_delete c f w) = store (after_delete c f w) :: commits w
  /\ rows_for c f (store (after_delete c f w)) = []
  /\ save_opp_stats vals w = execute sql_insert (Some vals) (after_delete c f w)
  /\ (forall w' e, save_opp_stats vals w = (w', Raised e) -> w' = after_delete c f w)
  /\ (forall w', save_opp_stats vals w = (w', Returned tt) ->
        commits w' = store w' :: store (after_delete c f w) :: commits w
        /\ rows_for c f (store w') = [row_of vals]).
Proof.
  intros Ht Hc Hf Hqc Hqf.
  assert (save_opp_stats vals w = execute sql_insert (Some vals) (after_delete c f w)) as Hsave.
  { rewrite (save_opp_stats_text _ _ _ _ Hc Hf). by rewrite execute_delete. }
  split; [done|]. split; [apply rows_for_after_delete|]. split; [done|].
  destruct (has_opp_table_after_delete c f w) as [rows1 Ht1].
  split.
  - intros w' e. rewrite Hsave, (execute_insert _ _ _ Ht1).
    repeat case_match; by intros [= <- <-] || intros [= <-].
  - intros w' Hret. split.
    + revert Hret. rewrite Hsave, (execute_insert _ _ _ Ht1).
      repeat case_match; try done. by intros [= <-].
    + by destruct (save_opp_stats_returns _ _ _ _ _ Ht Hc Hf Hret).
Qed.

(** C9.  The DELETE of [save_opp_stats] is the statement it is meant to be,
    with the two values as data, exactly when neither value holds a quote;
    and then it removes the rows with that cruise and file and no other. *)
Theorem sql_delete_exact_iff_no_quote (c f : string) :
  (parse_sql (sql_delete (PyStr c) (PyStr f)) = Some (intended_delete c f)
   <-> has_quote c = false /\ has_quote f = false)
  /\ (has_quote c = false -> has_quote f = false ->
      forall (w : world) (vals : gmap string pyval),
        has_opp_table (store w) ->
        vals !! "cruise" = Some (PyStr c) -> vals !! "file" = Some (PyStr f) ->
        save_opp_stats vals w = execute sql_insert (Some vals) (after_delete c f w)
        /\ rows_of "opp" (store (after_delete c f w))
           = List.filter (fun r => negb (is_key c f r)) (rows_of "opp" (store w))).
Proof.
  split.
  - split; [apply parse_sql_delete_inv|]. intros [Hc Hf]. by apply parse_sql_delete.
  - intros Hqc Hqf w vals Ht Hc Hf. split; [|apply rows_of_after_delete].
    rewrite (save_opp_stats_text _ _ _ _ Hc Hf). by rewrite execute_delete.
Qed.

(** ** The saves of the tests *)

Lemma fresh_world_has_opp_table : has_opp_table (store fresh_world).
Proof. exists []. vm_compute. reflexivity. Qed.

Lemma testcruise_vals_key fid :
  testcruise_vals fid !! "cruise" = Some (PyStr "testcruise")
  /\ testcruise_vals fid !! "file" = Some (PyStr test_file).
Proof. split; reflexivity. Qed.


(** [test_sqlite3_opp_overwrite]: saving under UUID1, then under UUID2,
    leaves one row, with UUID2. *)
Example test_sqlite3_opp_overwrite :
  let w := fst (save_all [testcruise_vals "UUID1"; testcruise_vals "UUID2"] fresh_world) in
  rows_for "testcruise" test_file (store w) = [row_of (testcruise_vals "UUID2")]
  /\ length (rows_of "opp" (store w)) = 1%nat
  /\ map (fun r => field opp_columns r "filter_id") (rows_of "opp" (store w))
     = [PyStr "UUID2"].
Proof. vm_compute. repeat split; reflexivity. Qed.

(** The prior row is gone and the new one is not there: a save whose INSERT
    is refused (here [opp_count] is [None], against NOT NULL) has already
    committed its DELETE. *)
Lemma save_opp_stats_not_atomic :
  let bad := <["opp_count" := PyNone]> (testcruise_vals "UUID2") in
  rows_for "testcruise" test_file (store stored_world)
    = [row_of (testcruise_vals "UUID1")]
  /\ snd (save_opp_stats bad stored_world) = Raised IntegrityError
  /\ rows_for "testcruise" test_file (store (fst (save_opp_stats bad stored_world))) = []
  /\ commits (fst (save_opp_stats bad stored_world))
     = store (fst (save_opp_stats bad stored_world)) :: commits stored_world.
Proof. vm_compute. repeat split; reflexivity. Qed.

(** A cruise name with a quote in it: the DELETE does not parse and the
    save raises before anything is written. *)
Example save_opp_stats_quote_fails :
  let vals := <["cruise" := PyStr "O'Brien"]> (testcruise_vals "UUID2") in
  save_opp_stats vals stored_world = (stored_world, Raised OperationalError).
Proof. vm_compute. reflexivity. Qed.

(** A cruise name that closes the literal and goes on in SQL: the DELETE
    removes the row of another cruise. *)
Example save_opp_stats_quote_deletes_other_rows :
  let vals := <["cruise" := PyStr "x' OR 'a' = 'a"]> (testcruise_vals "UUID2") in
  snd (save_opp_stats vals stored_world) = Returned tt
  /\ rows_for "testcruise" test_file (store stored_world)
     = [row_of (testcruise_vals "UUID1")]
  /\ rows_for "testcruise" test_file (store (fst (save_opp_stats vals stored_world))) = [].
Proof. vm_compute. repeat split; reflexivity. Qed.


Lemma save_opp_stats_two_commits_witness :
  commits (after_delete "testcruise" test_file stored_world)
    = store (after_delete "testcruise" test_file stored_world) :: commits stored_world
  /\ rows_for "testcruise" test_file (store (after_delete "testcruise" test_file stored_world)) = []
  /\ save_opp_stats (testcruise_vals "UUID2") stored_world
     = execute sql_insert (Some (testcruise_vals "UUID2"))
         (after_delete "testcruise" test_file stored_world)
  /\ (forall w' e, save_opp_stats (testcruise_vals "UUID2") stored_world = (w', Raised e) ->
        w' = after_delete "testcruise" test_file stored_world)
  /\ (forall w', save_opp_stats (testcruise_vals "UUID2") stored_world = (w', Returned tt) ->
        commits w' = store w' :: store (after_delete "testcruise" test_file stored_world)
                             :: commits stored_world
        /\ rows_for "testcruise" test_file (store w') = [row_of (testcruise_vals "UUID2")]).
Proof.
  apply (save_opp_stats_two_commits stored_world (testcruise_vals "UUID2")
           "testcruise" test_file).
  - eexists. vm_compute. reflexivity.
  - reflexivity.
  - reflexivity.
  - reflexivity.
  - reflexivity.
Defined.

(** * Proofs: save_filter_params *)

Section FilterParams.

Variable uuid4 : nat -> string.
Variable iso8601_now : nat -> string.

Lemma parse_sql_insert_filter :
  parse_sql sql_insert_filter = Some (SInsert "filter" filter_params).
Proof. vm_compute. reflexivity. Qed.

(** The world in which the INSERT of [save_filter_params] runs. *)
Lemma save_filter_params_unfold opts w :
  save_filter_params uuid4 iso8601_now opts w =
  let id := uuid4 (uuid_draws w) in
  let date := iso8601_now (clock_reads w) in
  let w2 := World (store w) (commits w) (S (uuid_draws w)) (S (clock_reads w)) in
  match execute sql_insert_filter
          (Some (<["id" := PyStr id]> (<["date" := PyStr date]> opts))) w2 with
  | (w', Returned _) => (w', Returned id)
  | (w', Raised e) => (w', Raised e)
  end.
Proof.
  unfold save_filter_params, bind, now, new_uuid, ret. cbn [store commits uuid_draws clock_reads].
  by destruct (execute _ _ _) as [w' [[]|e]].
Qed.

Lemma lookup_values id date (opts : gmap string pyval) k :
  k <> "id" -> k <> "date" ->
  <["id" := PyStr id]> (<["date" := PyStr date]> opts) !! k = opts !! k.
Proof. intros. by rewrite !lookup_insert_ne. Qed.

Lemma bound_values id date (opts : gmap string pyval) :
  mapM (fun p => <["id" := PyStr id]> (<["date" := PyStr date]> opts) !! p) filter_params
  = if bool_decide (has_options opts) then Some (filter_row id date opts) else None.
Proof.
  case_bool_decide as H.
  - rewrite mapM_lookup.
    + unfold filter_params, filter_row. cbn [map].
      rewrite lookup_insert_eq, lookup_insert_ne, lookup_insert_eq by done.
      by rewrite !lookup_values.
    + unfold filter_params. constructor; [by rewrite lookup_insert_eq|].
      constructor; [by rewrite lookup_insert_ne, lookup_insert_eq|].
      eapply Forall_impl; [exact H|]. intros k Hk. cbn beta.
      destruct (decide (k = "id")) as [->|]; [by rewrite lookup_insert_eq|].
      destruct (decide (k = "date")) as [->|];
        [by rewrite lookup_insert_ne, lookup_insert_eq|].
      by rewrite lookup_values.
  - destruct (mapM _ filter_params) as [row|] eqn:Hm; [|done].
    apply mapM_lookup_inv in Hm as [_ HF]. exfalso. apply H.
    unfold filter_params in HF. apply Forall_cons in HF as [_ HF].
    apply Forall_cons in HF as [_ HF].
    do 5 (apply Forall_cons in HF as [Hk HF];
          rewrite lookup_values in Hk by done;
          apply Forall_cons; split; [exact Hk|]; clear Hk).
    constructor.
Qed.

Lemma filter_row_notnull id date opts :
  notnull_ok filter_columns (filter_row id date opts)
  = bool_decide (default PyNone (opts !! "offset") <> PyNone
                 /\ default PyNone (opts !! "width") <> PyNone).
Proof.
  unfold notnull_ok, filter_row, filter_columns. cbn [zip zip_with forallb col_notnull].
  rewrite !(bool_decide_eq_false_2 (PyStr _ = PyNone)) by done. cbn [andb negb].
  destruct (decide (default PyNone (opts !! "offset") = PyNone)) as [Ho|Ho];
    destruct (decide (default PyNone (opts !! "width") = PyNone)) as [Hw|Hw];
    rewrite ?(bool_decide_eq_true_2 _ Ho), ?(bool_decide_eq_true_2 _ Hw),
      ?(bool_decide_eq_false_2 _ Ho), ?(bool_decide_eq_false_2 _ Hw);
    cbn [andb negb]; symmetry;
    (apply bool_decide_eq_true; tauto) || (apply bool_decide_eq_false; tauto).
Qed.

Lemma pk_taken_filter rows row :
  pk_taken (Table filter_columns ["id"] rows) row
  = bool_decide (field filter_columns row "id"
                 ∈ map (fun r => field filter_columns r "id") rows).
Proof.
  unfold pk_taken, pk_of. cbn [tbl_pk tbl_rows tbl_cols map].
  induction rows as [|r rows IH].
  - cbn [existsb map]. symmetry. apply bool_decide_eq_false. apply not_elem_of_nil.
  - cbn [existsb map]. rewrite IH, <- bool_decide_or. apply bool_decide_ext.
    rewrite elem_of_cons. split; (intros [H|H]; [left; congruence|by right]).
Qed.

(** What [save_filter_params] does on a filter table, case by case. *)
Lemma save_filter_params_spec opts w rows :
  store w !! "filter" = Some (Table filter_columns ["id"] rows) ->
  let id := uuid4 (uuid_draws w) in
  let date := iso8601_now (clock_reads w) in
  let w2 := World (store w) (commits w) (S (uuid_draws w)) (S (clock_reads w)) in
  save_filter_params uuid4 iso8601_now opts w =
  if bool_decide (has_options opts) then
    if bool_decide (default PyNone (opts !! "offset") <> PyNone
                    /\ default PyNone (opts !! "width") <> PyNone) then
      if bool_decide (PyStr id ∈ filter_ids (store w)) then (w2, Raised IntegrityError)
      else
        let db := <["filter" := Table filter_columns ["id"]
                                 (rows ++ [filter_row id date opts])]> (store w) in
        (World db (db :: commits w) (S (uuid_draws w)) (S (clock_reads w)), Returned id)
    else (w2, Raised IntegrityError)
  else (w2, Raised ProgrammingError).
Proof.
  intros Ht. cbn zeta. rewrite save_filter_params_unfold. cbn zeta.
  unfold execute, sqlite_execute. cbn [store commits uuid_draws clock_reads].
  rewrite parse_sql_insert_filter, Ht. cbn [tbl_cols tbl_pk tbl_rows].
  replace (negb (_ =? _)%nat) with false by (vm_compute; reflexivity).
  rewrite bound_values. case_bool_decide; [|done].
  rewrite filter_row_notnull. case_bool_decide; cbn [negb]; [|done].
  rewrite pk_taken_filter. unfold filter_ids. rewrite (rows_of_lookup _ _ _ Ht).
  cbn [tbl_rows]. change (field filter_columns (filter_row _ _ opts) "id")
    with (PyStr (uuid4 (uuid_draws w))).
  by case_bool_decide.
Qed.


Lemma filter_row_id id date opts : field filter_columns (filter_row id date opts) "id" = PyStr id.
Proof. reflexivity. Qed.




End FilterParams.

(** ** The filter parameters of the tests *)

Lemma fresh_world_has_filter_table : has_filter_table (store fresh_world).
Proof. exists []. vm_compute. reflexivity. Qed.


Lemma fresh_world_no_ids : filter_ids (store fresh_world) = [].
Proof. vm_compute. reflexivity. Qed.

(** [test_sqlite3_filter_params]: the row read back is the options plus
    the identifier returned (and the date). *)
Example test_sqlite3_filter_params :
  let r := save_filter_params numbered_uuid numbered_time test_filter_options fresh_world in
  snd r = Returned "uuid-0"
  /\ rows_of "filter" (store (fst r))
     = [[PyStr "uuid-0"; PyStr "2014-07-04T00:00:00"; PyNone; PyNone;
         PyFloat "0.0"; PyNone; PyFloat "0.5"]].
Proof. vm_compute. split; reflexivity. Qed.

(** Without a width the INSERT is refused. *)
Example save_filter_params_no_width :
  let opts := <["width" := PyNone]> test_filter_options in
  snd (save_filter_params numbered_uuid numbered_time opts fresh_world)
  = Raised IntegrityError.
Proof. vm_compute. reflexivity. Qed.



(** * Further properties of db.py *)

(** ** ensure_tables *)

Lemma create_table_keeps name cols pk (db : database) other t :
  db !! other = Some t ->
  create_table_if_not_exists name cols pk db !! other = Some t.
Proof.
  intros Ht. unfold create_table_if_not_exists.
  destruct (db !! name) eqn:E; [done|].
  rewrite lookup_insert_ne; [done|]. intros ->. congruence.
Qed.

Lemma create_table_present name cols pk (db : database) :
  is_Some (create_table_if_not_exists name cols pk db !! name).
Proof.
  unfold create_table_if_not_exists. destruct (db !! name) eqn:E.
  - by rewrite E.
  - by rewrite lookup_insert_eq.
Qed.

Lemma create_table_new name cols pk (db : database) :
  db !! name = None ->
  create_table_if_not_exists name cols pk db !! name = Some (Table cols pk []).
Proof. intros E. unfold create_table_if_not_exists. by rewrite E, lookup_insert_eq. Qed.

Lemma create_table_other name cols pk (db : database) other :
  other <> name ->
  create_table_if_not_exists name cols pk db !! other = db !! other.
Proof.
  intros Hne. unfold create_table_if_not_exists.
  destruct (db !! name); [done|]. by rewrite lookup_insert_ne.
Qed.

Lemma create_table_noop name cols pk (db : database) :
  is_Some (db !! name) -> create_table_if_not_exists name cols pk db = db.
Proof. intros [t E]. unfold create_table_if_not_exists. by rewrite E. Qed.

(** X1.  [ensure_tables] loses nothing and repeats without effect: a table that
    is there, with whatever rows, is there unchanged afterwards; all seven
    tables exist afterwards; and a second call leaves the store of the
    first. *)
Theorem ensure_tables_keeps_tables (w : world) :
  (forall name t, store w !! name = Some t ->
                  store (fst (ensure_tables w)) !! name = Some t)
  /\ (forall name, name ∈ table_names ->
                   is_Some (store (fst (ensure_tables w)) !! name))
  /\ store (fst (ensure_tables (fst (ensure_tables w)))) = store (fst (ensure_tables w)).
Proof.
  assert (forall w, forall name, name ∈ table_names ->
            is_Some (store (fst (ensure_tables w)) !! name)) as Hall.
  { intros w0 name Hin. unfold ensure_tables. cbn [fst store].
    unfold table_names in Hin.
    repeat (apply elem_of_cons in Hin as [->|Hin];
            [repeat (first [ apply create_table_present
                           | rewrite create_table_other by done ])|]).
    by apply elem_of_nil in Hin. }
  split; [|split; [apply Hall|]].
  - intros name t Ht. unfold ensure_tables. cbn [fst store].
    by repeat apply create_table_keeps.
  - pose proof (Hall w) as Hw. unfold table_names in Hw.
    set (db := store (fst (ensure_tables w))) in *.
    unfold ensure_tables at 1. cbn [fst store]. fold db.
    rewrite (create_table_noop "vct") by (apply Hw; set_solver).
    rewrite (create_table_noop "opp") by (apply Hw; set_solver).
    rewrite (create_table_noop "sfl") by (apply Hw; set_solver).
    rewrite (create_table_noop "cytdiv") by (apply Hw; set_solver).
    rewrite (create_table_noop "filter") by (apply Hw; set_solver).
    rewrite (create_table_noop "gating") by (apply Hw; set_solver).
    rewrite (create_table_noop "poly") by (apply Hw; set_solver).
    reflexivity.
Qed.

(** X2.  On a database without an opp table and without a filter table,
    [ensure_tables] creates both empty, with the columns and keys the save
    functions count on. *)
Theorem ensure_tables_creates (w : world) :
  store w !! "opp" = None -> store w !! "filter" = None ->
  store (fst (ensure_tables w)) !! "opp"
    = Some (Table opp_columns ["cruise"; "file"] [])
  /\ store (fst (ensure_tables w)) !! "filter"
     = Some (Table filter_columns ["id"] [])
  /\ has_opp_table (store (fst (ensure_tables w)))
  /\ has_filter_table (store (fst (ensure_tables w))).
Proof.
  intros Ho Hf.
  assert (store (fst (ensure_tables w)) !! "opp"
          = Some (Table opp_columns ["cruise"; "file"] [])) as H1.
  { unfold ensure_tables. cbn [fst store].
    rewrite !(create_table_other _ _ _ _ "opp") by done.
    apply create_table_new. by rewrite create_table_other. }
  assert (store (fst (ensure_tables w)) !! "filter"
          = Some (Table filter_columns ["id"] [])) as H2.
  { unfold ensure_tables. cbn [fst store].
    rewrite !(create_table_other _ _ _ _ "filter") by done.
    apply create_table_new. by rewrite !create_table_other. }
  repeat split; try done; by eexists.
Qed.

(** ** save_opp_stats: errors *)

Lemma execute_raised sql values w w' e :
  execute sql values w = (w', Raised e) -> w' = w.
Proof.
  unfold execute. destruct (sqlite_execute _ _ _); [|done]. by intros [= <- _].
Qed.

(** Whatever the two values are, the DELETE text names the opp table: when
    it runs it removes some of the rows and nothing else. *)
Lemma execute_delete_where cruise file w w' :
  has_opp_table (store w) ->
  execute (sql_delete cruise file) None w = (w', Returned tt) ->
  exists gone, w' = after_delete_where gone w.
Proof.
  intros [rows Ht]. unfold execute, sqlite_execute, parse_sql, tokenize, sql_delete.
  rewrite chars_app, lex_run_app, lex_feed_head. cbn [mbind option_bind].
  destruct (lex_run (LStr []) _) as [rest|]; cbn [mbind option_bind]; [|done].
  cbn [app parse_tokens].
  replace (bool_decide ("opp" ∈ keywords)) with false by (vm_compute; reflexivity).
  cbn [String.eqb Ascii.eqb Bool.eqb andb].
  destruct (parse_where _) as [cond|]; cbn [mbind option_bind]; [|done].
  rewrite Ht. destruct (forallb _ cond); [|done].
  intros [= <-]. exists (where_holds opp_columns cond).
  unfold after_delete_where. rewrite (rows_of_lookup _ _ _ Ht). reflexivity.
Qed.

Lemma after_delete_is_where c f w :
  after_delete c f w = after_delete_where (is_key c f) w.
Proof. reflexivity. Qed.

(** X3.  A dictionary without "cruise" or without "file".  The subscript
    raises [KeyError] naming the key, "cruise" first, before any statement
    runs: the store and its commits are as they were. *)
Theorem save_opp_stats_missing_key (vals : gmap string pyval) (w : world) :
  (vals !! "cruise" = None ->
   save_opp_stats vals w = (w, Raised (KeyError "cruise")))
  /\ (is_Some (vals !! "cruise") -> vals !! "file" = None ->
      save_opp_stats vals w = (w, Raised (KeyError "file"))).
Proof.
  split.
  - intros Hc. unfold save_opp_stats, bind, getitem. by rewrite Hc.
  - intros [c Hc] Hf. unfold save_opp_stats, bind, getitem. by rewrite Hc, Hf.
Qed.

Lemma notnull_ok_forallb cols row :
  Forall (fun c => col_notnull c = true) cols ->
  length cols = length row ->
  notnull_ok cols row = forallb (fun v => negb (bool_decide (v = PyNone))) row.
Proof.
  unfold notnull_ok. intros HF. revert row.
  induction HF as [|c cols Hc _ IH]; intros [|v row] Hlen; try done.
  cbn [zip zip_with forallb]. rewrite Hc. cbn [andb]. f_equal.
  apply IH. cbn [length] in Hlen. lia.
Qed.

Lemma opp_columns_notnull : Forall (fun c => col_notnull c = true) opp_columns.
Proof. unfold opp_columns. repeat (constructor; [reflexivity|]). constructor. Qed.

Lemma row_of_none vals f :
  f ∈ field_order -> vals !! f = Some PyNone ->
  notnull_ok opp_columns (row_of vals) = false.
Proof.
  intros Hin Hnone.
  rewrite (notnull_ok_forallb _ _ opp_columns_notnull) by reflexivity.
  destruct (forallb _ (row_of vals)) eqn:E; [|done].
  rewrite forallb_forall in E.
  assert (In PyNone (row_of vals)) as HIn.
  { unfold row_of. apply in_map_iff. exists f. rewrite Hnone. split; [done|].
    by apply list_elem_of_In. }
  apply E in HIn. by rewrite bool_decide_eq_true_2 in HIn.
Qed.

(** X4.  A save that cannot insert.  With the key given as quote-free text,
    a field of the opp row that has no binding makes the INSERT raise
    [ProgrammingError], and a field bound to [None] makes it raise
    [IntegrityError]; in both cases after the DELETE has committed, so the
    store holds no row for the key any more. *)
Theorem save_opp_stats_insert_refused
    (vals : gmap string pyval) (c f : string) (w : world) :
  has_opp_table (store w) ->
  vals !! "cruise" = Some (PyStr c) -> vals !! "file" = Some (PyStr f) ->
  has_quote c = false -> has_quote f = false ->
  (~ bound vals ->
   save_opp_stats vals w = (after_delete c f w, Raised ProgrammingError))
  /\ (bound vals -> (exists k, k ∈ field_order /\ vals !! k = Some PyNone) ->
      save_opp_stats vals w = (after_delete c f w, Raised IntegrityError))
  /\ rows_for c f (store (after_delete c f w)) = [].
Proof.
  intros Ht Hc Hf Hqc Hqf.
  assert (save_opp_stats vals w = execute sql_insert (Some vals) (after_delete c f w)) as ->.
  { rewrite (save_opp_stats_text _ _ _ _ Hc Hf). by rewrite execute_delete. }
  destruct (has_opp_table_after_delete c f w) as [rows1 Ht1].
  rewrite (execute_insert _ _ _ Ht1).
  split; [|split; [|apply rows_for_after_delete]].
  - intros Hnb. destruct (mapM _ field_order) as [row|] eqn:Hm; [|done].
    apply mapM_lookup_inv in Hm as [_ HF]. by destruct Hnb.
  - intros Hb (k & Hk & Hnone). rewrite (mapM_lookup _ _ Hb). fold (row_of vals).
    by rewrite (row_of_none _ _ Hk Hnone).
Qed.

(** ** save_opp_stats: what it leaves alone, and what it keeps *)

Lemma filter_filter_implied {A} (p q : A -> bool) (l : list A) :
  (forall x, p x = true -> q x = true) ->
  List.filter p (List.filter q l) = List.filter p l.
Proof.
  intros Himp. induction l as [|x l IH]; [done|]. cbn [List.filter].
  destruct (q x) eqn:Hq; cbn [List.filter].
  - by rewrite IH.
  - destruct (p x) eqn:Hp; [|done]. apply Himp in Hp. congruence.
Qed.

Lemma is_key_inj c f c' f' r :
  is_key c f r = true -> is_key c' f' r = true -> c' = c /\ f' = f.
Proof.
  unfold is_key. rewrite !andb_true_iff, !bool_decide_eq_true.
  intros [-> ->] [[= ->] [= ->]]. done.
Qed.

Lemma rows_for_after_delete_other c f c' f' w :
  (c', f') <> (c, f) ->
  rows_for c' f' (store (after_delete c f w)) = rows_for c' f' (store w).
Proof.
  intros Hne. unfold rows_for. rewrite rows_of_after_delete.
  apply filter_filter_implied. intros r Hk.
  destruct (is_key c f r) eqn:Hk'; [|done].
  destruct (is_key_inj _ _ _ _ _ Hk' Hk) as [-> ->]. done.
Qed.

Lemma after_delete_other_table c f w name :
  name <> "opp" -> store (after_delete c f w) !! name = store w !! name.
Proof. intros Hne. unfold after_delete. cbn [store]. by rewrite lookup_insert_ne. Qed.

Lemma after_insert_other_table row w name :
  name <> "opp" -> store (after_insert row w) !! name = store w !! name.
Proof. intros Hne. unfold after_insert. cbn [store]. by rewrite lookup_insert_ne. Qed.

(** With the key as quote-free text, a save is the INSERT run on the store
    the DELETE left, and ends in one of two stores. *)
Lemma save_opp_stats_ends vals c f w :
  has_opp_table (store w) ->
  vals !! "cruise" = Some (PyStr c) -> vals !! "file" = Some (PyStr f) ->
  has_quote c = false -> has_quote f = false ->
  (exists e, save_opp_stats vals w = (after_delete c f w, Raised e))
  \/ save_opp_stats vals w
     = (after_insert (row_of vals) (after_delete c f w), Returned tt).
Proof.
  intros Ht Hc Hf Hqc Hqf.
  rewrite (save_opp_stats_text _ _ _ _ Hc Hf), execute_delete by done.
  destruct (has_opp_table_after_delete c f w) as [rows1 Ht1].
  rewrite (execute_insert _ _ _ Ht1).
  destruct (mapM _ field_order) as [row|] eqn:Hm; [|left; by eexists].
  apply mapM_lookup_inv in Hm as [-> _]. fold (row_of vals).
  destruct (negb _); [left; by eexists|].
  destruct (existsb _ rows1); [left; by eexists|]. by right.
Qed.

(** X5.  What a save leaves alone.  With the key given as quote-free text,
    and whether the save returns or raises, the rows of every other
    (cruise, file) key are the same before and after, and so is every
    table other than opp. *)
Theorem save_opp_stats_frame
    (vals : gmap string pyval) (c f : string) (w : world) :
  has_opp_table (store w) ->
  vals !! "cruise" = Some (PyStr c) -> vals !! "file" = Some (PyStr f) ->
  has_quote c = false -> has_quote f = false ->
  (forall c' f', (c', f') <> (c, f) ->
     rows_for c' f' (store (fst (save_opp_stats vals w))) = rows_for c' f' (store w))
  /\ (forall name, name <> "opp" ->
        store (fst (save_opp_stats vals w)) !! name = store w !! name).
Proof.
  intros Ht Hc Hf Hqc Hqf.
  destruct (save_opp_stats_ends _ _ _ _ Ht Hc Hf Hqc Hqf) as [[e ->]| ->]; cbn [fst].
  - split; [intros; by apply rows_for_after_delete_other
           |intros; by apply after_delete_other_table].
  - split.
    + intros c' f' Hne. unfold rows_for at 1. rewrite rows_of_after_insert.
      rewrite List.filter_app. cbn [List.filter].
      destruct (is_key c' f' (row_of vals)) eqn:Hk.
      * destruct (is_key_inj _ _ _ _ _ (is_key_row_of _ _ _ Hc Hf) Hk) as [-> ->]. done.
      * rewrite app_nil_r. by apply rows_for_after_delete_other.
    + intros name Hne. rewrite after_insert_other_table by done.
      by apply after_delete_other_table.
Qed.

Lemma NoDup_map_filter {A B} (g : A -> B) (p : A -> bool) (l : list A) :
  NoDup (map g l) -> NoDup (map g (List.filter p l)).
Proof.
  induction l as [|x l IH]; [done|]. cbn [map List.filter].
  intros [Hx Hl]%NoDup_cons. destruct (p x); [|by apply IH].
  cbn [map]. apply NoDup_cons. split; [|by apply IH].
  intros Hin. apply Hx. apply list_elem_of_In in Hin. apply list_elem_of_In.
  apply in_map_iff in Hin as (y & Hy & Hin). apply in_map_iff. exists y.
  split; [done|]. by apply List.filter_In in Hin as [? _].
Qed.

Lemma pk_free rows row :
  existsb (fun r => bool_decide (opp_pk r = opp_pk row)) rows = false ->
  opp_pk row ∉ map opp_pk rows.
Proof.
  induction rows as [|r rows IH]; cbn [existsb map].
  - intros _. apply not_elem_of_nil.
  - intros [Hr Hrest]%orb_false_iff. apply bool_decide_eq_false in Hr.
    rewrite elem_of_cons. intros [Heq|Hin]; [by apply Hr|by apply IH].
Qed.

(** X6.  The key stays a key.  On an opp table in which no two rows share a
    (cruise, file) key, [save_opp_stats] leaves such a table, whatever
    dictionary it is given and whether it returns or raises. *)
Theorem save_opp_stats_keeps_keys_unique (vals : gmap string pyval) (w : world) :
  has_opp_table (store w) ->
  opp_keys_unique (store w) ->
  has_opp_table (store (fst (save_opp_stats vals w)))
  /\ opp_keys_unique (store (fst (save_opp_stats vals w))).
Proof.
  intros Ht Hu. unfold save_opp_stats, bind, getitem.
  destruct (vals !! "cruise") as [cruise|]; [|done].
  destruct (vals !! "file") as [file|]; [|done]. cbn [ret raise].
  destruct (execute (sql_delete cruise file) None w) as [w1 [[]|e]] eqn:Hd.
  2:{ apply execute_raised in Hd as ->. done. }
  apply execute_delete_where in Hd as [gone ->]; [|done].
  assert (has_opp_table (store (after_delete_where gone w))) as Ht1.
  { eexists. unfold after_delete_where. cbn [store]. apply lookup_insert_eq. }
  assert (opp_keys_unique (store (after_delete_where gone w))) as Hu1.
  { unfold opp_keys_unique, rows_of, after_delete_where. cbn [store].
    rewrite lookup_insert_eq. cbn [tbl_rows]. by apply NoDup_map_filter. }
  destruct Ht1 as [rows1 Hrows1]. rewrite (execute_insert _ _ _ Hrows1).
  assert (has_opp_table (store (after_delete_where gone w))) as Ht1 by by eexists.
  destruct (mapM _ field_order) as [row|]; [|done].
  destruct (negb _); [done|].
  destruct (existsb _ rows1) eqn:Hex; [done|]. cbn [fst].
  split; [apply has_opp_table_after_insert|].
  unfold opp_keys_unique. rewrite rows_of_after_insert, map_app. cbn [map].
  unfold opp_keys_unique in Hu1. rewrite (rows_of_lookup _ _ _ Hrows1) in *.
  cbn [tbl_rows] in *. apply NoDup_app. split; [done|]. split.
  - intros k Hk Hin. apply list_elem_of_singleton in Hin as ->.
    by apply (pk_free _ _ Hex).
  - apply NoDup_singleton.
Qed.

(** ** save_opp_stats: reprocessing *)

Lemma filter_not_key_twice c f rows :
  List.filter (fun r => negb (is_key c f r)) (List.filter (fun r => negb (is_key c f r)) rows)
  = List.filter (fun r => negb (is_key c f r)) rows.
Proof. by apply filter_filter_implied. Qed.

Lemma store_after_delete_twice c f w :
  store (after_delete c f (after_delete c f w)) = store (after_delete c f w).
Proof.
  unfold after_delete at 1. cbn [store]. rewrite rows_of_after_delete.
  rewrite filter_not_key_twice. unfold after_delete. cbn [store].
  by rewrite insert_insert_eq.
Qed.

Lemma store_after_delete_insert c f row w :
  is_key c f row = true ->
  store (after_delete c f (after_insert row (after_delete c f w)))
  = store (after_delete c f w).
Proof.
  intros Hk. unfold after_delete at 1. cbn [store].
  rewrite rows_of_after_insert, rows_of_after_delete, List.filter_app.
  cbn [List.filter]. rewrite Hk. cbn [negb]. rewrite app_nil_r, filter_not_key_twice.
  unfold after_insert, after_delete. cbn [store].
  by rewrite !insert_insert_eq.
Qed.

(** [execute] reads nothing of the world but the store. *)
Lemma execute_store sql values w1 w2 :
  store w1 = store w2 ->
  store (fst (execute sql values w1)) = store (fst (execute sql values w2))
  /\ snd (execute sql values w1) = snd (execute sql values w2).
Proof.
  intros Hs. unfold execute. rewrite Hs.
  by destruct (sqlite_execute (store w2) sql values).
Qed.

(** X7.  The last save wins.  For one key, given as quote-free text, a save
    that follows an earlier save, one that returned or one whose INSERT
    was refused, ends with the same outcome and in the same store as if the
    earlier save had never run. *)
Theorem save_opp_stats_overwrites
    (earlier later : gmap string pyval) (c f : string) (w : world) :
  has_opp_table (store w) ->
  earlier !! "cruise" = Some (PyStr c) -> earlier !! "file" = Some (PyStr f) ->
  later !! "cruise" = Some (PyStr c) -> later !! "file" = Some (PyStr f) ->
  has_quote c = false -> has_quote f = false ->
  store (fst (save_opp_stats later (fst (save_opp_stats earlier w))))
    = store (fst (save_opp_stats later w))
  /\ snd (save_opp_stats later (fst (save_opp_stats earlier w)))
     = snd (save_opp_stats later w).
Proof.
  intros Ht Hc1 Hf1 Hc2 Hf2 Hqc Hqf.
  assert (forall w0, has_opp_table (store w0) ->
            save_opp_stats later w0
            = execute sql_insert (Some later) (after_delete c f w0)) as Hlater.
  { intros w0 Ht0. rewrite (save_opp_stats_text _ _ _ _ Hc2 Hf2). by rewrite execute_delete. }
  destruct (save_opp_stats_ends _ _ _ _ Ht Hc1 Hf1 Hqc Hqf) as [[e ->]| ->]; cbn [fst].
  - rewrite (Hlater _ (has_opp_table_after_delete c f w)), (Hlater _ Ht).
    apply execute_store. apply store_after_delete_twice.
  - rewrite (Hlater _ (has_opp_table_after_insert _ _)), (Hlater _ Ht).
    apply execute_store. apply store_after_delete_insert.
    by apply is_key_row_of.
Qed.



(** ** save_filter_params: what it writes and what it keeps *)

Section FilterParamsMore.

Variable uuid4 : nat -> string.
Variable iso8601_now : nat -> string.

(** The three ways a call on a filter table can end. *)
Lemma save_filter_params_ends opts w :
  has_filter_table (store w) ->
  let w2 := World (store w) (commits w) (S (uuid_draws w)) (S (clock_reads w)) in
  (~ has_options opts
   /\ save_filter_params uuid4 iso8601_now opts w = (w2, Raised ProgrammingError))
  \/ (has_options opts
      /\ save_filter_params uuid4 iso8601_now opts w = (w2, Raised IntegrityError))
  \/ (has_options opts
      /\ (PyStr (uuid4 (uuid_draws w)) ∉ filter_ids (store w))
      /\ exists w',
           save_filter_params uuid4 iso8601_now opts w
           = (w', Returned (uuid4 (uuid_draws w)))
           /\ store w' = <["filter" := Table filter_columns ["id"]
                             (rows_of "filter" (store w)
                              ++ [filter_row (uuid4 (uuid_draws w))
                                             (iso8601_now (clock_reads w)) opts])]>
                           (store w)).
Proof.
  intros [rows Ht]. cbn zeta. rewrite (save_filter_params_spec _ _ _ _ _ Ht). cbn zeta.
  rewrite (rows_of_lookup _ _ _ Ht). cbn [tbl_rows].
  case_bool_decide as Ho; [|by left]. right.
  case_bool_decide as Hn; [|by left].
  case_bool_decide as Hid; [by left|]. right.
  split; [done|]. split; [done|]. by eexists.
Qed.


(** X9.  A call that raises writes nothing.  It leaves the store and its
    commits as they were, having used up one identifier and one reading of
    the clock; the exception is [ProgrammingError] exactly when one of the
    five options has no binding in the dictionary, and [IntegrityError]
    otherwise. *)
Theorem save_filter_params_raises
    (opts : gmap string pyval) (w w' : world) (e : exn) :
  has_filter_table (store w) ->
  save_filter_params uuid4 iso8601_now opts w = (w', Raised e) ->
  store w' = store w /\ commits w' = commits w
  /\ uuid_draws w' = S (uuid_draws w) /\ clock_reads w' = S (clock_reads w)
  /\ (e = ProgrammingError <-> ~ has_options opts)
  /\ (e = IntegrityError <-> has_options opts).
Proof.
  intros Ht Hr.
  destruct (save_filter_params_ends opts w Ht)
    as [[Ho H]|[[Ho H]|(Ho & _ & w1 & H & _)]]; rewrite H in Hr.
  - injection Hr as <- <-. cbn [store commits uuid_draws clock_reads].
    do 4 (split; [done|]). split; split; done.
  - injection Hr as <- <-. cbn [store commits uuid_draws clock_reads].
    do 4 (split; [done|]). split; split; done.
  - done.
Qed.

(** X10.  The filter table only grows.  Whatever the options and however the
    call ends, every row that was in the filter table is still there,
    unchanged and in place, at most one row has been added behind them,
    and every other table is as it was. *)
Theorem save_filter_params_appends (opts : gmap string pyval) (w : world) :
  has_filter_table (store w) ->
  (exists added,
     rows_of "filter" (store (fst (save_filter_params uuid4 iso8601_now opts w)))
     = rows_of "filter" (store w) ++ added
     /\ (length added <= 1)%nat)
  /\ (forall name, name <> "filter" ->
        store (fst (save_filter_params uuid4 iso8601_now opts w)) !! name
        = store w !! name).
Proof.
  intros Ht.
  destruct (save_filter_params_ends opts w Ht)
    as [[Ho H]|[[Ho H]|(Ho & _ & w1 & H & Hs)]]; rewrite H; cbn [fst store].
  - split; [|done]. exists []. rewrite app_nil_r. split; [done|cbn; lia].
  - split; [|done]. exists []. rewrite app_nil_r. split; [done|cbn; lia].
  - rewrite Hs. split.
    + eexists [_]. split; [|cbn; lia]. unfold rows_of at 1. by rewrite lookup_insert_eq.
    + intros name Hne. by rewrite lookup_insert_ne.
Qed.

(** X11.  The id stays a key.  On a filter table in which no two rows share an
    id, every call leaves such a table, even when [uuid.uuid4] repeats
    itself. *)
Theorem save_filter_params_keeps_ids_unique (opts : gmap string pyval) (w : world) :
  has_filter_table (store w) ->
  filter_ids_unique (store w) ->
  has_filter_table (store (fst (save_filter_params uuid4 iso8601_now opts w)))
  /\ filter_ids_unique (store (fst (save_filter_params uuid4 iso8601_now opts w))).
Proof.
  intros Ht Hu.
  destruct (save_filter_params_ends opts w Ht)
    as [[Ho H]|[[Ho H]|(Ho & Hfresh & w1 & H & Hs)]]; rewrite H; cbn [fst store];
    [done|done|].
  rewrite Hs. split; [eexists; apply lookup_insert_eq|].
  unfold filter_ids_unique, filter_ids, rows_of at 1. rewrite lookup_insert_eq.
  cbn [tbl_rows]. rewrite map_app. cbn [map]. rewrite filter_row_id.
  apply NoDup_app. split; [exact Hu|]. split; [|apply NoDup_singleton].
  intros k Hk Hin. apply list_elem_of_singleton in Hin as ->. by apply Hfresh.
Qed.


End FilterParamsMore.

(** ** cli/commands/evt_cmd.py *)

Section EvtCmdProofs.

Variable isdir : string -> bool.
Variable isfile : string -> bool.
Variable find_evt_files : string -> bool -> list string.
Variable new_SeaFlowFile : string -> option SeaFlowFile.
Variable read_evt_labview : string -> string + nat.
Variable read_opp_labview : string -> string + nat.
Variable read_labview_row_count : string -> option nat.

Abbreviation expand := (expand_file_list isdir isfile find_evt_files).
Abbreviation examine' := (examine new_SeaFlowFile read_evt_labview read_opp_labview).
Abbreviation passing' := (passing new_SeaFlowFile read_evt_labview read_opp_labview).
Abbreviation listing' := (listing new_SeaFlowFile read_evt_labview read_opp_labview).
Abbreviation validate := (validate_evt_cmd isdir isfile find_evt_files new_SeaFlowFile
                                       read_evt_labview read_opp_labview).
Abbreviation validate_step' :=
  (validate_step new_SeaFlowFile read_evt_labview read_opp_labview).
Abbreviation count := (count_evt_cmd isdir isfile find_evt_files new_SeaFlowFile
                                 read_labview_row_count).
Abbreviation count_row' := (count_row new_SeaFlowFile read_labview_row_count).
Abbreviation count_step' := (count_step new_SeaFlowFile read_labview_row_count).

Lemma dfiles_fold dirs acc :
  fold_left (fun dfiles d =>
               (dfiles ++ find_evt_files d false) ++ find_evt_files d true) dirs acc
  = acc ++ concat (map (fun d => find_evt_files d false ++ find_evt_files d true) dirs).
Proof.
  revert acc. induction dirs as [|d dirs IH]; intros acc; cbn [fold_left map concat].
  - by rewrite app_nil_r.
  - by rewrite IH, <- !app_assoc.
Qed.

Lemma filter_all {A} (p : A -> bool) (l : list A) :
  (forall x, x ∈ l -> p x = true) -> List.filter p l = l.
Proof.
  induction l as [|x l IH]; intros H; [done|]. cbn [List.filter].
  rewrite (H x) by apply list_elem_of_here. f_equal. apply IH.
  intros y Hy. apply H. by apply list_elem_of_further.
Qed.

Lemma filter_none {A} (p : A -> bool) (l : list A) :
  (forall x, x ∈ l -> p x = false) -> List.filter p l = [].
Proof.
  induction l as [|x l IH]; intros H; [done|]. cbn [List.filter].
  rewrite (H x) by apply list_elem_of_here. apply IH.
  intros y Hy. apply H. by apply list_elem_of_further.
Qed.

(** X13.  [expand_file_list] gives the arguments that are regular files, in
    the order given, and behind them, directory by directory, the EVT files
    and then the OPP files found there.  An argument that is neither is
    dropped; a list of regular files comes back as it is. *)
Theorem expand_file_list_paths (files_and_dirs : list string) :
  expand_file_list isdir isfile find_evt_files files_and_dirs
  = List.filter isfile files_and_dirs
    ++ concat (map (fun d => find_evt_files d false ++ find_evt_files d true)
                   (List.filter isdir files_and_dirs))
  /\ (forall p, isfile p = false -> isdir p = false ->
        expand_file_list isdir isfile find_evt_files (p :: files_and_dirs)
        = expand_file_list isdir isfile find_evt_files files_and_dirs)
  /\ ((forall p, p ∈ files_and_dirs -> isfile p = true /\ isdir p = false) ->
      expand_file_list isdir isfile find_evt_files files_and_dirs = files_and_dirs).
Proof.
  assert (forall l, expand l
    = List.filter isfile l
      ++ concat (map (fun d => find_evt_files d false ++ find_evt_files d true)
                     (List.filter isdir l))) as Heq.
  { intros l. unfold expand_file_list. cbn zeta. by rewrite dfiles_fold. }
  split; [apply Heq|]. split.
  - intros p Hf Hd. rewrite !Heq. cbn [List.filter]. by rewrite Hf, Hd.
  - intros H. rewrite Heq.
    rewrite filter_all by (intros x Hx; by apply H).
    rewrite filter_none by (intros x Hx; by apply H).
    apply app_nil_r.
Qed.

(** The loop of [validate_evt_cmd], from any point on. *)
Lemma validate_loop report_all fs st :
  let st' := fold_left (validate_step' report_all) fs st in
  ok st' = (ok st + length (passing' fs))%nat
  /\ (bad st' + ok st' = bad st + ok st + length fs)%nat
  /\ printed st'
     = printed st
       ++ (if header_printed st then [] else
             match fs with [] => [] | _ => [validate_header] end)
       ++ listing' report_all fs.
Proof.
  revert st. induction fs as [|f fs IH]; intros st; cbn zeta.
  - cbn [fold_left]. unfold passing, listing. cbn [List.filter map length].
    split; [lia|]. split; [lia|]. destruct (header_printed st); by rewrite !app_nil_r.
  - cbn [fold_left]. destruct (IH (validate_step' report_all st f)) as (Hok & Hsum & Hout).
    rewrite Hout. clear IH Hout. revert Hok Hsum.
    unfold validate_step, passing, listing. cbn [ok bad printed header_printed].
    cbn [List.filter]. cbn zeta. intros Hok Hsum.
    destruct (v_passed (examine' f)); cbn [length];
      (split; [lia|]); (split; [lia|]);
      destruct (header_printed st), (listed report_all (examine' f));
      cbn [map app]; by rewrite <- ?app_assoc.
Qed.

(** X14.  The summary of [validate].  With no arguments nothing is written at
    all.  Otherwise one line goes to STDERR, and its two numbers are the
    number of files that passed, out of the number of files examined: the
    arguments after directories have been expanded, each counted once as
    passed or failed. *)
Theorem validate_evt_cmd_summary (report_all : bool) (files : list string) :
  validate report_all [] = Build_console [] []
  /\ (files <> [] ->
      stderr (validate report_all files)
      = [validate_summary (length (passing' (expand files))) (length (expand files))]).
Proof.
  split; [done|]. intros Hne. destruct files as [|f files]; [done|].
  unfold validate_evt_cmd. cbn [stderr]. cbn zeta.
  destruct (validate_loop report_all (expand (f :: files)) (Build_progress false 0 0 []))
    as (Hok & Hsum & _).
  cbn [ok bad] in Hok, Hsum. rewrite Hsum, Hok. by rewrite !Nat.add_0_l.
Qed.

(** X15.  The report of [validate].  With arguments that expand to at least
    one file, STDOUT is the header, once, and then the lines of the listed
    files in the order examined; with [-a] that is one line for every file.
    When the arguments expand to no file, not even the header is printed. *)
Theorem validate_evt_cmd_listing (report_all : bool) (files : list string) :
  files <> [] ->
  stdout (validate report_all files)
  = match expand files with
    | [] => []
    | _ => validate_header :: listing' report_all (expand files)
    end
  /\ length (listing' true (expand files)) = length (expand files).
Proof.
  intros Hne. destruct files as [|f files]; [done|]. split.
  - unfold validate_evt_cmd. cbn [stdout]. cbn zeta.
    destruct (validate_loop report_all (expand (f :: files)) (Build_progress false 0 0 []))
      as (_ & _ & Hout).
    rewrite Hout. cbn [printed header_printed app].
    by destruct (expand (f :: files)).
  - unfold listing. rewrite length_map. f_equal. apply filter_all.
    intros x _. unfold listed. cbn [andb]. apply orb_negb_r.
Qed.

(** X16.  What [validate] makes of one file.  A file that passed has status
    OK.  A file that failed has 0 events and as status the text of the
    error of one of the two readers; it is listed with [-a], and without
    [-a] as well unless that text is itself OK.  Without [-a] no file that
    passed is listed. *)
Theorem examine_status (filepath : string) :
  (v_passed (examine' filepath) = true ->
     v_status (examine' filepath) = "OK"
     /\ listed false (examine' filepath) = false)
  /\ (v_passed (examine' filepath) = false ->
        v_events (examine' filepath) = 0%nat
        /\ (read_evt_labview filepath = inl (v_status (examine' filepath))
            \/ read_opp_labview filepath = inl (v_status (examine' filepath)))
        /\ listed true (examine' filepath) = true
        /\ (listed false (examine' filepath) = false
            <-> v_status (examine' filepath) = "OK")).
Proof.
  assert (forall v, listed true v = true) as Hall.
  { intros v. unfold listed. cbn [andb]. apply orb_negb_r. }
  assert (forall v, listed false v = false <-> v_status v = "OK") as Hnone.
  { intros v. unfold listed. cbn [andb orb]. rewrite negb_false_iff.
    apply String.eqb_eq. }
  split.
  - intros Hp. assert (v_status (examine' filepath) = "OK") as Hs.
    { revert Hp. unfold examine.
      destruct (new_SeaFlowFile filepath) as [[id [] []]|]; cbn;
        repeat (match goal with |- context [match ?r with inl _ => _ | inr _ => _ end] =>
                  destruct r end; cbn); done. }
    split; [done|]. by apply Hnone.
  - intros Hp. split; [|split; [|split; [apply Hall|apply Hnone]]].
    + revert Hp. unfold examine.
      destruct (new_SeaFlowFile filepath) as [[id [] []]|]; cbn;
        repeat (match goal with |- context [match ?r with inl _ => _ | inr _ => _ end] =>
                  destruct r end; cbn); done.
    + revert Hp. unfold examine.
      destruct (new_SeaFlowFile filepath) as [[id [] []]|]; cbn;
        destruct (read_evt_labview filepath) eqn:He; cbn; try done;
        try (by left); destruct (read_opp_labview filepath) eqn:Ho; cbn; try done;
        by right.
Qed.

Lemma append_assoc (a b c : string) : (a +:+ b) +:+ c = a +:+ (b +:+ c).
Proof.
  induction a as [|x a IH]; [done|].
  change (String x ((a +:+ b) +:+ c) = String x (a +:+ (b +:+ c))). by rewrite IH.
Qed.

(** The loop of [count_evt_cmd], from any point on. *)
Lemma count_loop no_header fs hp out :
  snd (fold_left (count_step' no_header) fs (hp, out))
  = out
    ++ (if negb hp && negb no_header then
          match fs with [] => [] | _ => [count_header] end
        else [])
    ++ map count_row' fs.
Proof.
  revert hp out. induction fs as [|f fs IH]; intros hp out.
  - cbn [fold_left snd map]. destruct (negb hp && negb no_header); by rewrite !app_nil_r.
  - cbn [fold_left map]. unfold count_step at 2.
    destruct hp, no_header; cbn [negb andb]; rewrite IH; cbn [negb andb app];
      by rewrite <- ?app_assoc.
Qed.

(** X17.  The report of [count].  With arguments, STDOUT holds one line for
    every file the arguments expand to, in order, each with the number of
    events its header declares, or 0 when the header cannot be read; the
    column header goes before them unless [-H] is given or there is no file
    at all.  With no arguments nothing is printed. *)
Theorem count_evt_cmd_rows (no_header : bool) (evt_files : list string) :
  count no_header [] = []
  /\ (evt_files <> [] ->
      count no_header evt_files
      = (if no_header then [] else
           match expand evt_files with [] => [] | _ => [count_header] end)
        ++ map count_row' (expand evt_files))
  /\ (forall f, read_labview_row_count f = None ->
        exists line, count_row' f = line +:+ tab +:+ "0").
Proof.
  split; [done|]. split.
  - intros Hne. destruct evt_files as [|f fs]; [done|].
    unfold count_evt_cmd. cbn zeta. rewrite count_loop. cbn [negb andb app].
    by destruct no_header.
  - intros f Hf. unfold count_row. rewrite Hf.
    destruct (new_SeaFlowFile f) as [sff|].
    + exists (f +:+ tab +:+ file_id sff +:+ tab +:+ (if is_opp sff then "opp" else "evt")).
      cbn [py_join]. by rewrite !append_assoc.
    + exists (f +:+ tab +:+ "-" +:+ tab +:+ "-").
      cbn [py_join]. by rewrite !append_assoc.
Qed.

End EvtCmdProofs.

(** ** The extra properties on the data of the tests *)

Lemma stored_world_has_opp_table : has_opp_table (store stored_world).
Proof. eexists. vm_compute. reflexivity. Qed.

Lemma stored_world_keys_unique : opp_keys_unique (store stored_world).
Proof. unfold opp_keys_unique. vm_compute. apply NoDup_singleton. Qed.

Lemma ensure_tables_creates_witness :
  store (fst (ensure_tables (World ∅ [] 0 0))) !! "opp"
    = Some (Table opp_columns ["cruise"; "file"] [])
  /\ store (fst (ensure_tables (World ∅ [] 0 0))) !! "filter"
     = Some (Table filter_columns ["id"] [])
  /\ has_opp_table (store (fst (ensure_tables (World ∅ [] 0 0))))
  /\ has_filter_table (store (fst (ensure_tables (World ∅ [] 0 0)))).
Proof.
  apply (ensure_tables_creates (World ∅ [] 0 0)).
  - reflexivity.
  - reflexivity.
Defined.

Lemma save_opp_stats_insert_refused_witness :
  (~ bound (<["opp_count" := PyNone]> (testcruise_vals "UUID2")) ->
   save_opp_stats (<["opp_count" := PyNone]> (testcruise_vals "UUID2")) stored_world
   = (after_delete "testcruise" test_file stored_world, Raised ProgrammingError))
  /\ (bound (<["opp_count" := PyNone]> (testcruise_vals "UUID2")) ->
      (exists k, k ∈ field_order
                 /\ <["opp_count" := PyNone]> (testcruise_vals "UUID2") !! k = Some PyNone) ->
      save_opp_stats (<["opp_count" := PyNone]> (testcruise_vals "UUID2")) stored_world
      = (after_delete "testcruise" test_file stored_world, Raised IntegrityError))
  /\ rows_for "testcruise" test_file
       (store (after_delete "testcruise" test_file stored_world)) = [].
Proof.
  apply (save_opp_stats_insert_refused
           (<["opp_count" := PyNone]> (testcruise_vals "UUID2"))
           "testcruise" test_file stored_world).
  - exact stored_world_has_opp_table.
  - reflexivity.
  - reflexivity.
  - reflexivity.
  - reflexivity.
Defined.

(** A summary with a field set to [None], or with a field left out, saved
    over a stored one: the stored row is gone and the call has raised. *)
Example save_opp_stats_null_field :
  save_opp_stats (<["opp_count" := PyNone]> (testcruise_vals "UUID2")) stored_world
  = (after_delete "testcruise" test_file stored_world, Raised IntegrityError).
Proof. vm_compute. reflexivity. Qed.

Example save_opp_stats_field_left_out :
  save_opp_stats (delete "opp_count" (testcruise_vals "UUID2")) stored_world
  = (after_delete "testcruise" test_file stored_world, Raised ProgrammingError).
Proof. vm_compute. reflexivity. Qed.

Lemma save_opp_stats_frame_witness :
  (forall c' f', (c', f') <> ("testcruise", test_file) ->
     rows_for c' f' (store (fst (save_opp_stats (testcruise_vals "UUID2") stored_world)))
     = rows_for c' f' (store stored_world))
  /\ (forall name, name <> "opp" ->
        store (fst (save_opp_stats (testcruise_vals "UUID2") stored_world)) !! name
        = store stored_world !! name).
Proof.
  apply (save_opp_stats_frame (testcruise_vals "UUID2") "testcruise" test_file
                              stored_world).
  - exact stored_world_has_opp_table.
  - reflexivity.
  - reflexivity.
  - reflexivity.
  - reflexivity.
Defined.

Lemma save_opp_stats_keeps_keys_unique_witness :
  has_opp_table (store (fst (save_opp_stats (testcruise_vals "UUID2") stored_world)))
  /\ opp_keys_unique (store (fst (save_opp_stats (testcruise_vals "UUID2") stored_world))).
Proof.
  apply (save_opp_stats_keeps_keys_unique (testcruise_vals "UUID2") stored_world).
  - exact stored_world_has_opp_table.
  - exact stored_world_keys_unique.
Defined.

Lemma save_opp_stats_overwrites_witness :
  store (fst (save_opp_stats (testcruise_vals "UUID2")
                (fst (save_opp_stats (testcruise_vals "UUID1") fresh_world))))
    = store (fst (save_opp_stats (testcruise_vals "UUID2") fresh_world))
  /\ snd (save_opp_stats (testcruise_vals "UUID2")
            (fst (save_opp_stats (testcruise_vals "UUID1") fresh_world)))
     = snd (save_opp_stats (testcruise_vals "UUID2") fresh_world).
Proof.
  apply (save_opp_stats_overwrites (testcruise_vals "UUID1") (testcruise_vals "UUID2")
                                   "testcruise" test_file fresh_world).
  - exact fresh_world_has_opp_table.
  - reflexivity.
  - reflexivity.
  - reflexivity.
  - reflexivity.
  - reflexivity.
  - reflexivity.
Defined.


Lemma save_filter_params_raises_witness :
  store (World (store fresh_world) (commits fresh_world) 1 1) = store fresh_world
  /\ commits (World (store fresh_world) (commits fresh_world) 1 1) = commits fresh_world
  /\ uuid_draws (World (store fresh_world) (commits fresh_world) 1 1)
     = S (uuid_draws fresh_world)
  /\ clock_reads (World (store fresh_world) (commits fresh_world) 1 1)
     = S (clock_reads fresh_world)
  /\ (ProgrammingError = ProgrammingError
      <-> ~ has_options (delete "width" test_filter_options))
  /\ (ProgrammingError = IntegrityError
      <-> has_options (delete "width" test_filter_options)).
Proof.
  apply (save_filter_params_raises numbered_uuid numbered_time
           (delete "width" test_filter_options) fresh_world
           (World (store fresh_world) (commits fresh_world) 1 1) ProgrammingError).
  - exact fresh_world_has_filter_table.
  - vm_compute. reflexivity.
Defined.

Lemma save_filter_params_appends_witness :
  (exists added,
     rows_of "filter"
       (store (fst (save_filter_params numbered_uuid numbered_time
                      test_filter_options fresh_world)))
     = rows_of "filter" (store fresh_world) ++ added
     /\ (length added <= 1)%nat)
  /\ (forall name, name <> "filter" ->
        store (fst (save_filter_params numbered_uuid numbered_time
                      test_filter_options fresh_world)) !! name
        = store fresh_world !! name).
Proof.
  apply (save_filter_params_appends numbered_uuid numbered_time
           test_filter_options fresh_world).
  exact fresh_world_has_filter_table.
Defined.

Lemma save_filter_params_keeps_ids_unique_witness :
  has_filter_table
    (store (fst (save_filter_params numbered_uuid numbered_time
                   test_filter_options fresh_world)))
  /\ filter_ids_unique
       (store (fst (save_filter_params numbered_uuid numbered_time
                      test_filter_options fresh_world))).
Proof.
  apply (save_filter_params_keeps_ids_unique numbered_uuid numbered_time
           test_filter_options fresh_world).
  - exact fresh_world_has_filter_table.
  - unfold filter_ids_unique. rewrite fresh_world_no_ids. apply NoDup_nil_2.
Defined.


Lemma validate_evt_cmd_listing_witness :
  stdout (validate_evt_cmd (fun _ => false) (fun _ => true) (fun _ _ => [])
            (fun _ => None) first_readable first_readable false ["a.evt"; "b.evt"])
  = match expand_file_list (fun _ => false) (fun _ => true) (fun _ _ => [])
            ["a.evt"; "b.evt"] with
    | [] => []
    | _ => validate_header
           :: listing (fun _ => None) first_readable first_readable false
                (expand_file_list (fun _ => false) (fun _ => true) (fun _ _ => [])
                   ["a.evt"; "b.evt"])
    end
  /\ length (listing (fun _ => None) first_readable first_readable true
               (expand_file_list (fun _ => false) (fun _ => true) (fun _ _ => [])
                  ["a.evt"; "b.evt"]))
     = length (expand_file_list (fun _ => false) (fun _ => true) (fun _ _ => [])
                 ["a.evt"; "b.evt"]).
Proof.
  apply (validate_evt_cmd_listing (fun _ => false) (fun _ => true) (fun _ _ => [])
           (fun _ => None) first_readable first_readable false ["a.evt"; "b.evt"]).
  discriminate.
Defined.

(** The run above prints the header and the line of the file that failed,
    and reports one file of two as passed. *)
Example validate_evt_cmd_two_files :
  validate_evt_cmd (fun _ => false) (fun _ => true) (fun _ _ => [])
    (fun _ => None) first_readable first_readable false ["a.evt"; "b.evt"]
  = Build_console
      [ py_join tab ["path"; "file_id"; "type"; "status"; "events"];
        py_join tab ["b.evt"; "-"; "-"; "File has no particles"; "0"] ]
      [ "1/2 files passed validation" ].
Proof. vm_compute. reflexivity. Qed.
